(** * Freepik proxy of [server.js]: submission handler and task poller

    A shallow embedding of [pollFreepikTask] and of the
    [POST /api/freepik/generate] handler, over a small model of the
    JavaScript values that [JSON.parse] produces, followed by the
    properties of the submit-then-poll logic. *)

From Stdlib Require Import String Ascii List ZArith Bool Lia DecimalString.
Import ListNotations.
Open Scope string_scope.

(** ** JavaScript values *)

Module JS.

#[local] Set Warnings "-register-all".

(** Values reachable from [JSON.parse], plus [undefined] (the result of
    reading an absent property).  Numbers are the integers; only their
    truthiness and their decimal rendering are ever observed.  Strings are
    sequences of code units.  An object is its list of own properties, read
    by first match. *)
Inductive value : Type :=
| VUndefined
| VNull
| VBool (b : bool)
| VNum (z : Z)
| VStr (s : string)
| VArr (elems : list value)
| VObj (fields : list (string * value)).

(** Thrown values: [new Error(msg)] and the engine's own errors. *)
Inductive exn : Type :=
| Error (msg : string)
| TypeError (msg : string)
| SyntaxError (msg : string).

Definition message (e : exn) : string :=
  match e with Error m | TypeError m | SyntaxError m => m end.

(** Evaluation of an expression: a value or a thrown exception. *)
Inductive res (A : Type) : Type :=
| Ok (a : A)
| Raise (e : exn).
Arguments Ok {A} a.
Arguments Raise {A} e.

Definition bind {A B} (m : res A) (k : A -> res B) : res B :=
  match m with Ok a => k a | Raise e => Raise e end.

Local Notation "x <- m ;; k" := (bind m (fun x => k))
  (at level 61, m at next level, right associativity).

(** ToBoolean. *)
Definition truthy (v : value) : bool :=
  match v with
  | VUndefined | VNull => false
  | VBool b => b
  | VNum z => negb (z =? 0)%Z
  | VStr s => negb (s =? "")
  | VArr _ | VObj _ => true
  end.

(** [a || b]. *)
Definition or_else (a b : value) : value := if truthy a then a else b.

Definition nullish (v : value) : bool :=
  match v with VUndefined | VNull => true | _ => false end.

Fixpoint lookup (k : string) (fs : list (string * value)) : option value :=
  match fs with
  | [] => None
  | (k', v) :: rest => if k' =? k then Some v else lookup k rest
  end.

Definition from_option (o : option value) : value :=
  match o with Some v => v | None => VUndefined end.

(** [v.name] on a value that is neither [null] nor [undefined], for the
    identifier names the server reads (none of them is inherited from a
    prototype, except [length] on arrays and strings). *)
Definition prop (v : value) (name : string) : value :=
  match v with
  | VObj fs => from_option (lookup name fs)
  | VArr l => if name =? "length" then VNum (Z.of_nat (List.length l)) else VUndefined
  | VStr s => if name =? "length" then VNum (Z.of_nat (String.length s)) else VUndefined
  | _ => VUndefined
  end.

(** [v.name]: a TypeError on [null] and [undefined]. *)
Definition get (v : value) (name : string) : res value :=
  if nullish v
  then Raise (TypeError ("Cannot read properties of null or undefined (reading '" ++ name ++ "')"))
  else Ok (prop v name).

(** [v?.name]. *)
Definition get_opt (v : value) (name : string) : value :=
  if nullish v then VUndefined else prop v name.

(** [v[0]] on a value that is neither [null] nor [undefined]. *)
Definition first (v : value) : value :=
  match v with
  | VArr l => match l with x :: _ => x | [] => VUndefined end
  | VStr s => match s with String c _ => VStr (String c "") | EmptyString => VUndefined end
  | VObj fs => from_option (lookup "0" fs)
  | _ => VUndefined
  end.

(** [v === "lit"]. *)
Definition is_str (v : value) (lit : string) : bool :=
  match v with VStr s => s =? lit | _ => false end.

(** [v.substring(a, b)] evaluated for a log line: only whether the call
    throws matters; it does on everything but a string. *)
Definition substring_call (expr : string) (v : value) : res unit :=
  match v with
  | VStr _ => Ok tt
  | _ => Raise (TypeError (expr ++ ".substring is not a function"))
  end.

(** [v ? v.substring(..) : 'none'] inside a log line. *)
Definition log_prefix (expr : string) (v : value) : res unit :=
  if truthy v then substring_call expr v else Ok tt.

(** ToString, as a template literal applies it.  An object is rendered by
    the inherited [toString], unless it has an own property of that name:
    a JSON value is never callable, so the conversion then fails.  A number
    is rendered in decimal, which is the rendering of JavaScript for the
    integers of absolute value up to 2^53; no property below depends on the
    digits. *)
Fixpoint to_string (v : value) : res string :=
  match v with
  | VUndefined => Ok "undefined"
  | VNull => Ok "null"
  | VBool true => Ok "true"
  | VBool false => Ok "false"
  | VNum z => Ok (NilZero.string_of_int (Z.to_int z))
  | VStr s => Ok s
  | VArr l =>
      (fix join (l : list value) : res string :=
         match l with
         | [] => Ok ""
         | x :: rest =>
             s <- (if nullish x then Ok "" else to_string x) ;;
             match rest with
             | [] => Ok s
             | _ :: _ => t <- join rest ;; Ok (s ++ "," ++ t)
             end
         end) l
  | VObj fs =>
      match lookup "toString" fs with
      | Some _ => Raise (TypeError "Cannot convert object to primitive value")
      | None => Ok "[object Object]"
      end
  end.

(** [a || b] where evaluating either side may throw; [b] is evaluated only
    when [a] is falsy. *)
Definition or_m (a b : res value) : res value :=
  x <- a ;; if truthy x then Ok x else b.

(** A value that a log line can print. *)
Definition printable (v : value) : bool :=
  match to_string v with Ok _ => true | Raise _ => false end.

End JS.

(** ** The provider, as the server reaches it through [fetch] *)

Module Net.
Import JS.

Record request : Type := {
  meth : string;
  url : string;
  api_key : string;            (* header x-freepik-api-key *)
  body : option value          (* the object handed to JSON.stringify *)
}.

Record response : Type := {
  status : Z;
  text : string;               (* await r.text() *)
  json : option value          (* await r.json(); None when the body is not JSON *)
}.

(** [r.ok]: the status is in the range 200-299. *)
Definition ok (r : response) : bool :=
  ((200 <=? status r) && (status r <=? 299))%Z.

(** What [await fetch(..)] does: it rejects, or it resolves to a response. *)
Inductive fetch_result : Type :=
| Rejected (e : exn)
| Response (r : response).

(** The provider answers the n-th call of a client request (counted from 0)
    as it pleases. *)
Definition provider : Type := nat -> request -> fetch_result.

(** [await r.json()].  The message of the engine's SyntaxError depends on
    the body; one message stands for all of them, and no property below
    depends on it. *)
Definition read_json (r : response) : res value :=
  match json r with
  | Some v => Ok v
  | None => Raise (SyntaxError "Unexpected token in JSON")
  end.

End Net.

(** ** The task poller: [pollFreepikTask] *)

Module Poller.
Import JS Net.

Definition FREEPIK_API_URL : string := "https://api.freepik.com/v1/ai/mystic".

(** The three status URLs tried for a task, in order. *)
Definition endpoints (taskId : string) : list string :=
  [ FREEPIK_API_URL ++ "/" ++ taskId;
    FREEPIK_API_URL ++ "?task_id=" ++ taskId;
    "https://api.freepik.com/v1/ai/tasks/" ++ taskId ].

Definition status_request (apiKey url : string) : request :=
  {| meth := "GET"; url := url; api_key := apiKey; body := None |}.

(** How a block of statements ends. *)
Inductive completion : Type :=
| Normal
| Continue
| Return (v : value)
| Throw (e : exn).

Definition lift (m : res unit) (k : completion) : completion :=
  match m with Ok _ => k | Raise e => Throw e end.

(** [image.url || image.image_url || image.imageUrl || image.src ||
    (typeof image === 'string' ? image : null)]. *)
Definition image_url (image : value) : res value :=
  or_m (or_m (or_m (or_m (get image "url") (get image "image_url"))
                   (get image "imageUrl"))
             (get image "src"))
       (Ok (match image with VStr _ => image | _ => VNull end)).

(** The branch taken on COMPLETED or SUCCESS; [d] is [data.data]. *)
Definition extract (d : value) : completion :=
  let generated := prop d "generated" in
  if truthy generated && truthy (prop generated "length") then
    let image := first generated in
    match image_url image with
    | Raise e => Throw e
    | Ok imageUrl => lift (log_prefix "imageUrl" imageUrl) (Return imageUrl)
    end
  else
    Return (or_else (or_else (prop d "url") (prop d "image_url")) VNull).

(** The body of the [try] for one candidate: how it ends, and the value of
    [working] when it does.  [working] is [null] or one of the URLs, which
    are never empty, so [!working] is the test for [null]. *)
Definition try_block (url : string) (fr : fetch_result) (working : option string)
  : completion * option string :=
  match fr with
  | Rejected e => (Throw e, working)
  | Response r =>
      if negb (ok r) then (Continue, working)
      else
        match read_json r with
        | Raise e => (Throw e, working)
        | Ok data =>
            if truthy data && truthy (prop data "data") then
              let status := prop (prop data "data") "status" in
              match to_string status with
              | Raise e => (Throw e, working)
              | Ok shown =>
                  let working :=
                    match working with None => Some url | Some w => Some w end in
                  if is_str status "COMPLETED" || is_str status "SUCCESS" then
                    (extract (prop data "data"), working)
                  else if is_str status "FAILED" || is_str status "ERROR" then
                    (Throw (Error ("Task failed: " ++ shown)), working)
                  else (Normal, working)
              end
            else (Normal, working)
        end
  end.

(** [catch (_) { /* try next */ }]: whatever the [try] threw is dropped. *)
Definition catch_next (c : completion) : completion :=
  match c with Throw _ => Normal | _ => c end.

(** One iteration of the loop over the candidates. *)
Definition probe (url : string) (fr : fetch_result) (working : option string)
  : completion * option string :=
  let (c, w) := try_block url fr working in (catch_next c, w).

(** [working ? [working] : endpoints]. *)
Definition candidates (working : option string) (eps : list string) : list string :=
  match working with Some w => [w] | None => eps end.

(** The loop over the candidates of one attempt, from the call count
    [calls]: the value returned (if the function returns in this loop), the
    final [working], and the candidates probed with what each answered. *)
Fixpoint for_candidates (net : provider) (apiKey : string) (cs : list string)
    (calls : nat) (working : option string)
  : option value * option string * list (string * fetch_result) :=
  match cs with
  | [] => (None, working, [])
  | url :: rest =>
      let fr := net calls (status_request apiKey url) in
      match probe url fr working with
      | (Return v, w) => (Some v, w, [(url, fr)])
      | (_, w) =>
          let '(r, w', log) := for_candidates net apiKey rest (S calls) w in
          (r, w', (url, fr) :: log)
      end
  end.

(** What one attempt did: its probes, and the delay it slept afterwards
    ([None] when the function returned during the attempt). *)
Record round_log : Type := {
  probes : list (string * fetch_result);
  slept : option Z
}.

(** The loop over the attempts; [remaining] is [maxAttempts - attempt]. *)
Fixpoint attempts (net : provider) (apiKey : string) (eps : list string)
    (intervalMs : Z) (remaining : nat) (calls : nat) (working : option string)
  : res value * list round_log :=
  match remaining with
  | O => (Raise (Error "Freepik polling timeout"), [])
  | S k =>
      let '(r, w, log) :=
        for_candidates net apiKey (candidates working eps) calls working in
      match r with
      | Some v => (Ok v, [ {| probes := log; slept := None |} ])
      | None =>
          let (out, rounds) :=
            attempts net apiKey eps intervalMs k (calls + List.length log) w in
          (out, {| probes := log; slept := Some intervalMs |} :: rounds)
      end
  end.

(** [pollFreepikTask(taskId, apiKey, maxAttempts, intervalMs)], where the
    provider has already answered [calls] calls.  The task id is rendered
    into the URLs by template literals. *)
Definition pollFreepikTask (net : provider) (taskId : value) (apiKey : string)
    (maxAttempts : nat) (intervalMs : Z) (calls : nat)
  : res value * list round_log :=
  match to_string taskId with
  | Raise e => (Raise e, [])
  | Ok tid => attempts net apiKey (endpoints tid) intervalMs maxAttempts calls None
  end.

Definition all_probes (rounds : list round_log) : list (string * fetch_result) :=
  concat (map probes rounds).

End Poller.

(** ** The handler of [POST /api/freepik/generate] *)

Module Server.
Import JS Net Poller.

(** [res.status(code).json(payload)]. *)
Record reply : Type := {
  code : Z;
  payload : value
}.

(** What the handler did to the provider: the calls it submitted, and the
    rounds of the poller when it was invoked. *)
Record effects : Type := {
  submitted : list request;
  polled : option (list round_log)
}.

Definition no_effects : effects := {| submitted := []; polled := None |}.

Definition error_reply (c : Z) (msg : string) : reply :=
  {| code := c; payload := VObj [("error", VStr msg)] |}.

Definition url_reply (u : value) : reply :=
  {| code := 200; payload := VObj [("url", u)] |}.

Definition quota_message : string :=
  "Freepik API quota exceeded (free trial limit reached). Upgrade your plan or use a new API key.".

Definition quota_reply : reply :=
  {| code := 429;
     payload := VObj [("error", VStr quota_message); ("quota_exceeded", VBool true)] |}.

Definition submit_request (apiKey : string) (prompt aspect_ratio : value) : request :=
  {| meth := "POST"; url := FREEPIK_API_URL; api_key := apiKey;
     body := Some (VObj [("prompt", prompt); ("aspect_ratio", aspect_ratio)]) |}.

(** [result?.data?.task_id && result?.data?.status === 'CREATED']. *)
Definition is_task_handle (result : value) : bool :=
  truthy (get_opt (get_opt result "data") "task_id")
  && is_str (get_opt (get_opt result "data") "status") "CREATED".

(** [result?.data?.url || result?.data?.image_url || result?.url || null]. *)
Definition direct (result : value) : value :=
  or_else (or_else (or_else (get_opt (get_opt result "data") "url")
                            (get_opt (get_opt result "data") "image_url"))
                   (get_opt result "url"))
          VNull.

(** The statements after a successful [resp.json()]. *)
Definition on_result (net : provider) (apiKey : string) (rq : request) (result : value)
  : res reply * effects :=
  let sent := {| submitted := [rq]; polled := None |} in
  match to_string (get_opt (get_opt result "data") "task_id") with
  | Raise e => (Raise e, sent)
  | Ok _ =>
  match to_string (get_opt (get_opt result "data") "status") with
  | Raise e => (Raise e, sent)
  | Ok _ =>
      if is_task_handle result then
        let (r, rounds) :=
          pollFreepikTask net (prop (prop result "data") "task_id") apiKey 60 2000 1 in
        let eff := {| submitted := [rq]; polled := Some rounds |} in
        match r with
        | Raise e => (Raise e, eff)
        | Ok u => (Ok (url_reply u), eff)
        end
      else
        match log_prefix "direct" (direct result) with
        | Raise e => (Raise e, sent)
        | Ok _ => (Ok (url_reply (direct result)), sent)
        end
  end end.

(** The statements after [fetch] has resolved to [resp]. *)
Definition on_response (net : provider) (apiKey : string) (rq : request) (resp : response)
  : res reply * effects :=
  let sent := {| submitted := [rq]; polled := None |} in
  if negb (ok resp) then
    if (status resp =? 429)%Z then (Ok quota_reply, sent)
    else
      (Ok (error_reply 502
             ("Freepik error "
              ++ NilZero.string_of_int (Z.to_int (status resp))
              ++ ": " ++ text resp)), sent)
  else
    match read_json resp with
    | Raise e => (Raise e, sent)
    | Ok result => on_result net apiKey rq result
    end.

(** The call to the provider and what follows it. *)
Definition submit (net : provider) (apiKey : string) (rq : request)
  : res reply * effects :=
  match net 0 rq with
  | Rejected e => (Raise e, {| submitted := [rq]; polled := None |})
  | Response resp => on_response net apiKey rq resp
  end.

(** The body of the handler's [try].  [env_key] is
    [process.env.FREEPIK_API_KEY], [req_body] is [req.body]. *)
Definition generate_try (net : provider) (env_key : option string) (req_body : value)
  : res reply * effects :=
  match env_key with
  | None | Some EmptyString =>
      (Ok (error_reply 400 "Freepik API key missing on server"), no_effects)
  | Some apiKey =>
      let b := or_else req_body (VObj []) in
      let prompt := prop b "prompt" in
      let aspect_ratio := prop b "aspect_ratio" in
      match log_prefix "prompt" prompt with
      | Raise e => (Raise e, no_effects)
      | Ok _ =>
      match to_string aspect_ratio with
      | Raise e => (Raise e, no_effects)
      | Ok _ =>
          if negb (truthy prompt) then
            (Ok (error_reply 400 "prompt required"), no_effects)
          else submit net apiKey (submit_request apiKey prompt aspect_ratio)
      end end
  end.

(** [catch (e)]: status 500 with [e.message || 'Freepik proxy failure']. *)
Definition on_exception (e : exn) : reply :=
  error_reply 500 (if message e =? "" then "Freepik proxy failure" else message e).

Definition finish (x : res reply * effects) : reply * effects :=
  match x with
  | (Ok r, eff) => (r, eff)
  | (Raise e, eff) => (on_exception e, eff)
  end.

(** The handler: the reply sent to the client and what was done on the way. *)
Definition generate (net : provider) (env_key : option string) (req_body : value)
  : reply * effects :=
  finish (generate_try net env_key req_body).

(** Number of calls made to the provider. *)
Definition provider_calls (eff : effects) : nat :=
  List.length (submitted eff)
  + match polled eff with
    | Some rounds => List.length (all_probes rounds)
    | None => 0
    end.

End Server.

(** ** Vocabulary of the properties of the poller *)

Module PollerSpec.
Import JS Net Poller.

(** The [data.data] that a response shows to the status test: the response
    is ok, its body is JSON, and [data && data.data] holds. *)
Definition status_payload (fr : fetch_result) : option value :=
  match fr with
  | Rejected _ => None
  | Response r =>
      if ok r then
        match json r with
        | Some data =>
            if truthy data && truthy (prop data "data")
            then Some (prop data "data") else None
        | None => None
        end
      else None
  end.

Definition status_of (d : value) : value := prop d "status".

Definition is_success (s : value) : bool :=
  is_str s "COMPLETED" || is_str s "SUCCESS".

Definition is_failure (s : value) : bool :=
  is_str s "FAILED" || is_str s "ERROR".

(** The pin condition of the code: an answer that reaches the assignment
    of [working], that is a status payload whose status the log line can
    print.  No status field is needed for it. *)
Definition pins (fr : fetch_result) : bool :=
  match status_payload fr with
  | Some d => printable (status_of d)
  | None => false
  end.

(** The value that a response makes the poller return, if any. *)
Definition result_of (fr : fetch_result) : option value :=
  match status_payload fr with
  | Some d =>
      if is_success (status_of d) then
        match extract d with Return v => Some v | _ => None end
      else None
  | None => None
  end.

(** The first candidate of a list of probes whose answer met the pin
    condition. *)
Fixpoint first_pin (log : list (string * fetch_result)) : option string :=
  match log with
  | [] => None
  | (u, fr) :: rest => if pins fr then Some u else first_pin rest
  end.

(** A well-formed status payload in the words of the specification: a
    status payload in which a status field is present, holding a string. *)
Definition shows_status (fr : fetch_result) : bool :=
  match status_payload fr with
  | Some d => match status_of d with VStr _ => true | _ => false end
  | None => false
  end.

(** The first candidate of a list of probes that answered a status payload
    with a status field. *)
Fixpoint first_with_status (log : list (string * fetch_result)) : option string :=
  match log with
  | [] => None
  | (u, fr) :: rest => if shows_status fr then Some u else first_with_status rest
  end.

(** A response with no terminal status: no status payload at all, or a
    status outside COMPLETED, SUCCESS, FAILED and ERROR. *)
Definition non_terminal (fr : fetch_result) : bool :=
  match status_payload fr with
  | Some d => negb (is_success (status_of d)) && negb (is_failure (status_of d))
  | None => true
  end.

(** The first truthy value of a list of alternatives, else the default. *)
Definition first_truthy (vs : list value) (default : value) : value :=
  fold_right or_else default vs.

(** The fields of a generated element in their order of preference, then
    the element itself when it is a string. *)
Definition from_image (image : value) : value :=
  first_truthy
    [prop image "url"; prop image "image_url"; prop image "imageUrl"; prop image "src"]
    (match image with VStr _ => image | _ => VNull end).

Definition top_level (d : value) : value :=
  first_truthy [prop d "url"; prop d "image_url"] VNull.

(** The artifact of a completed task in the order of preference of the
    specification: the first element of the generated list, by its fields
    url, image_url, imageUrl, src, then itself when it is a string;
    without such a list, the top-level url, then image_url; else null. *)
Definition artifact (d : value) : value :=
  match prop d "generated" with
  | VArr (image :: _) => from_image image
  | _ => top_level d
  end.

Definition string_or_falsy (v : value) : bool :=
  match v with VStr _ => true | _ => negb (truthy v) end.

(** The payloads on which the list of generated assets is a list (or is
    absent), its first element is not null, and the preferred field holds a
    string when it holds anything. *)
Definition artifact_typed (d : value) : bool :=
  match prop d "generated" with
  | VArr (image :: _) => negb (nullish image) && string_or_falsy (from_image image)
  | VStr (String _ _) => false
  | VObj fs => negb (truthy (from_option (lookup "length" fs)))
  | _ => true
  end.

(** A probe on which the poller does not return. *)
Definition no_result (p : string * fetch_result) : Prop := result_of (snd p) = None.

(** The error thrown after the last attempt. *)
Definition timeout_error : exn := Error "Freepik polling timeout".

(** A provider that answers every call with status 200 and the JSON [v]. *)
Definition always (v : value) : provider :=
  fun _ _ => Response {| status := 200; text := ""; json := Some v |}.

Definition status_body (fields : list (string * value)) : value :=
  VObj [("data", VObj fields)].

Definition failed_body : value := status_body [("status", VStr "FAILED")].

Definition in_progress_body : value := status_body [("status", VStr "IN_PROGRESS")].

Definition completed_body : value :=
  status_body [("status", VStr "COMPLETED");
               ("generated", VArr [VObj [("url", VStr "https://x/a.png")]])].

Definition empty_round : round_log := {| probes := []; slept := None |}.

(** Two attempts against a provider that always answers IN_PROGRESS. *)
Definition in_progress_session : res value * list round_log :=
  pollFreepikTask (always in_progress_body) (VStr "T1") "k" 2 2000 0.

(** Two attempts allowed against a provider that always answers COMPLETED
    with one generated asset. *)
Definition completed_session : res value * list round_log :=
  pollFreepikTask (always completed_body) (VStr "T1") "k" 2 2000 0.

(** The answer [{data: {}}]: a truthy [data] and no status. *)
Definition bare_data : response :=
  {| status := 200; text := ""; json := Some (VObj [("data", VObj [])]) |}.

Definition bare_body : value := VObj [("data", VObj [])].

(** Two attempts against a provider that always answers [{data: {}}]. *)
Definition bare_session : res value * list round_log :=
  pollFreepikTask (always bare_body) (VStr "T1") "k" 2 2000 0.

(** C2 as the claim states it, pinning being decided by the presence of a
    status field: an attempt queries only the first candidate that showed a
    status in an earlier attempt, and the full ordered list when none did. *)
Definition pinning_on_status_field : Prop :=
  forall (net : provider) (taskId : value) (tid apiKey : string)
         (maxAttempts : nat) (intervalMs : Z) (calls : nat) (out : res value)
         (rounds pre post : list round_log) (r : round_log),
    to_string taskId = Ok tid ->
    pollFreepikTask net taskId apiKey maxAttempts intervalMs calls = (out, rounds) ->
    rounds = (pre ++ r :: post)%list ->
    match first_with_status (all_probes pre) with
    | Some u => map fst (probes r) = [u]
    | None =>
        match slept r with
        | Some _ => map fst (probes r) = endpoints tid
        | None => exists rest, endpoints tid = (map fst (probes r) ++ rest)%list
        end
    end.

End PollerSpec.

(** ** Vocabulary of the properties of the handler *)

Module ServerSpec.
Import JS Net Poller Server PollerSpec.

Definition sent (rq : request) : effects := {| submitted := [rq]; polled := None |}.

(** The fields of the request body that the handler reads. *)
Definition prompt_of (req_body : value) : value :=
  prop (or_else req_body (VObj [])) "prompt".

Definition aspect_ratio_of (req_body : value) : value :=
  prop (or_else req_body (VObj [])) "aspect_ratio".

(** The fields of the submission answer that the handler reads. *)
Definition task_id_of (result : value) : value :=
  get_opt (get_opt result "data") "task_id".

Definition handle_status_of (result : value) : value :=
  get_opt (get_opt result "data") "status".

(** The directly embedded result field of a submission answer, in the
    words of the specification: url, then image_url. *)
Definition embedded (result : value) : value :=
  or_else (get_opt (get_opt result "data") "url")
          (get_opt (get_opt result "data") "image_url").

(** A provider that answers every call with status 429 and a body that is
    not JSON. *)
Definition too_many_requests : provider :=
  fun _ _ => Response {| status := 429; text := "slow down"; json := None |}.

Definition cat_request : value := VObj [("prompt", VStr "a cat")].

Definition cat_submission : request := submit_request "k" (VStr "a cat") VUndefined.

(** C7 as the claim states it, without a guard on the task handle: every
    2xx answer with an embedded result (a non-empty string under url, then
    image_url) is replied as that value, with no polling. *)
Definition unguarded_round_trip : Prop :=
  forall (net : provider) (env_key : option string) (req_body : value)
         (rq : request) (r : response) (result : value) (s : string),
    submitted (snd (generate net env_key req_body)) = [rq] ->
    net 0 rq = Response r ->
    ok r = true ->
    json r = Some result ->
    embedded result = VStr s ->
    s <> "" ->
    generate net env_key req_body = (url_reply (VStr s), sent rq).

(** C8 as the claim states it, for every 2xx answer: an answer shows a
    task handle, or a result, only when its body is JSON that holds one. *)
Definition shows_task_handle (r : response) : bool :=
  match json r with
  | Some result => is_task_handle result
  | None => false
  end.

Definition shows_result (r : response) : bool :=
  match json r with
  | Some result => truthy (embedded result) || truthy (get_opt result "url")
  | None => false
  end.

Definition null_success_on_every_answer : Prop :=
  forall (net : provider) (env_key : option string) (req_body : value)
         (rq : request) (r : response),
    submitted (snd (generate net env_key req_body)) = [rq] ->
    net 0 rq = Response r ->
    ok r = true ->
    shows_task_handle r = false ->
    shows_result r = false ->
    generate net env_key req_body = (url_reply VNull, sent rq).

(** A provider that answers every call with status 200 and a body that is
    not JSON. *)
Definition html_answer : provider :=
  fun _ _ => Response {| status := 200; text := "<html>"; json := None |}.

(** An answer that is a task handle and embeds a url as well, followed by
    status answers of a completed task with another url. *)
Definition handle_with_url : value :=
  status_body [("task_id", VStr "T1"); ("status", VStr "CREATED");
               ("url", VStr "https://x/early.png")].

Definition handle_then_completed : provider :=
  fun n _ =>
    Response {| status := 200; text := "";
                json := Some (match n with O => handle_with_url | _ => completed_body end) |}.

Definition direct_body : value :=
  status_body [("image_url", VStr "https://x/direct.png")].

End ServerSpec.

(** ** The debug route: [GET /api/freepik/debug] *)

Module Routes.
Import JS Poller.

(** The string without its first [n] code units. *)
Fixpoint drop (n : nat) (s : string) : string :=
  match n, s with
  | O, _ => s
  | S k, String _ rest => drop k rest
  | S _, EmptyString => EmptyString
  end.

(** [s.slice(-k)]: from index [max(length - k, 0)] to the end. *)
Definition slice_last (k : nat) (s : string) : string :=
  drop (String.length s - k) s.

(** [!!process.env.FREEPIK_API_KEY]. *)
Definition hasKey (env_key : option string) : bool :=
  match env_key with
  | Some (String _ _) => true
  | Some EmptyString | None => false
  end.

(** [hasKey ? process.env.FREEPIK_API_KEY.slice(-6) : null]. *)
Definition keyTail (env_key : option string) : value :=
  match env_key with
  | Some key => if hasKey env_key then VStr (slice_last 6 key) else VNull
  | None => VNull
  end.

(** The object that the debug route replies. *)
Definition debug (env_key : option string) : value :=
  VObj [("hasKey", VBool (hasKey env_key));
        ("keyTail", keyTail env_key);
        ("endpoint", VStr FREEPIK_API_URL)].

End Routes.

(** ** Vocabulary of the further properties *)

Module ExtraSpec.
Import JS Net Poller Server PollerSpec ServerSpec.

(** The values that a reply can carry as its url: null, a string, or a
    truthy value; never [undefined], [false] or [0]. *)
Definition presentable (v : value) : Prop :=
  truthy v = true \/ v = VNull \/ v = VStr "".

(** The two shapes of a reply: status 200 with a url, or one of the error
    statuses with a non-empty error message. *)
Definition well_shaped (r : reply) : Prop :=
  (code r = 200%Z
   /\ exists u, payload r = VObj [("url", u)] /\ presentable u)
  \/ (In (code r) [400; 429; 500; 502]%Z
      /\ exists msg, prop (payload r) "error" = VStr msg /\ msg <> "").

(** The cost of a client request: at most one submission, at most 60
    attempts, at most 181 calls in all. *)
Definition within_bounds (eff : effects) : Prop :=
  provider_calls eff <= 181
  /\ List.length (submitted eff) <= 1
  /\ (forall rounds, polled eff = Some rounds -> List.length rounds <= 60).

(** A provider whose first status answer is a network failure and whose
    later ones are COMPLETED. *)
Definition flaky_then_completed : provider :=
  fun n _ =>
    match n with
    | O => Rejected (Error "fetch failed")
    | _ => Response {| status := 200; text := ""; json := Some completed_body |}
    end.

(** A completed task whose first generated element is null. *)
Definition null_image_body : value :=
  status_body [("status", VStr "COMPLETED"); ("generated", VArr [VNull])].

(** A completed task whose first generated element has a number as url. *)
Definition numeric_url_body : value :=
  status_body [("status", VStr "COMPLETED");
               ("generated", VArr [VObj [("url", VNum 5)]])].

(** A provider that rejects every call. *)
Definition unreachable : provider := fun _ _ => Rejected (Error "fetch failed").

(** A provider that answers every call with status 503 and a text body. *)
Definition unavailable : provider :=
  fun _ _ => Response {| status := 503; text := "maintenance"; json := None |}.

(** A provider that answers every call with status 200 and a body that is
    not JSON. *)
Definition not_json : provider :=
  fun _ _ => Response {| status := 200; text := "<html>"; json := None |}.

(** The answer to a submission that is a task handle. *)
Definition handle_body : value :=
  status_body [("task_id", VStr "T1"); ("status", VStr "CREATED")].

(** A provider that answers the submission with a task handle and every
    status request with FAILED. *)
Definition handle_then_failed : provider :=
  fun n _ =>
    Response {| status := 200; text := "";
                json := Some (match n with O => handle_body | _ => failed_body end) |}.

End ExtraSpec.

(** ** Properties of the poller *)

Module PollerFacts.
Import JS Net Poller PollerSpec.

Lemma is_str_printable (s : value) (lit : string) :
  is_str s lit = true -> exists shown, to_string s = Ok shown.
Proof.
  destruct s; simpl; try discriminate. intros _. now exists s.
Qed.

Lemma is_success_printable (s : value) :
  is_success s = true -> printable s = true.
Proof.
  unfold is_success, printable. intros H.
  apply orb_true_iff in H as [H | H];
    destruct (is_str_printable _ _ H) as [x ->]; reflexivity.
Qed.

(** [working] after the [try]: unchanged once set, and set to the candidate
    exactly when its answer meets the pin condition. *)
Lemma try_block_working (url : string) (fr : fetch_result) (w : option string) :
  snd (try_block url fr w) =
  match w with
  | Some u => Some u
  | None => if pins fr then Some url else None
  end.
Proof.
  unfold try_block, pins, status_payload, read_json, printable, status_of.
  destruct fr as [e | r]; simpl; [now destruct w|].
  destruct (ok r); simpl; [|now destruct w].
  destruct (json r) as [data|]; simpl; [|now destruct w].
  destruct (truthy data && truthy (prop data "data")); simpl; [|now destruct w].
  destruct (to_string (prop (prop data "data") "status")); simpl; [|now destruct w].
  destruct (is_str _ "COMPLETED" || is_str _ "SUCCESS");
    [|destruct (is_str _ "FAILED" || is_str _ "ERROR")]; now destruct w.
Qed.

Lemma probe_working (url : string) (fr : fetch_result) (w : option string) :
  snd (probe url fr w) =
  match w with
  | Some u => Some u
  | None => if pins fr then Some url else None
  end.
Proof.
  unfold probe. rewrite <- try_block_working.
  now destruct (try_block url fr w).
Qed.

(** The iteration for one candidate returns exactly the value of
    [result_of]; otherwise the loop goes on to the next candidate. *)
Lemma probe_returns (url : string) (fr : fetch_result) (w : option string) (v : value) :
  fst (probe url fr w) = Return v <-> result_of fr = Some v.
Proof.
  unfold probe, try_block, result_of, status_payload, read_json, status_of.
  destruct fr as [e | r]; simpl; [split; discriminate|].
  destruct (ok r); simpl; [|split; discriminate].
  destruct (json r) as [data|]; simpl; [|split; discriminate].
  destruct (truthy data && truthy (prop data "data")); simpl; [|split; discriminate].
  set (st := prop (prop data "data") "status").
  destruct (is_success st) eqn:Hs.
  - pose proof (is_success_printable _ Hs) as Hp. unfold printable in Hp.
    unfold is_success in Hs.
    destruct (to_string st); [|discriminate]. rewrite Hs. simpl.
    destruct (extract (prop data "data")); simpl; split; congruence.
  - unfold is_success in Hs. destruct (to_string st); simpl; [|split; discriminate].
    rewrite Hs. destruct (is_str st "FAILED" || is_str st "ERROR"); simpl;
      split; discriminate.
Qed.

Lemma first_pin_app (l1 l2 : list (string * fetch_result)) :
  first_pin (l1 ++ l2)%list =
  match first_pin l1 with
  | Some u => Some u
  | None => first_pin l2
  end.
Proof.
  induction l1 as [|[u fr] l1 IH]; simpl; [reflexivity|].
  now destruct (pins fr).
Qed.

Section Candidates.

Variable net : provider.
Variable apiKey : string.

(** One step of the loop over the candidates. *)
Lemma for_candidates_cons (url : string) (rest : list string) (n : nat)
    (w : option string) :
  let fr := net n (status_request apiKey url) in
  for_candidates net apiKey (url :: rest) n w =
  match result_of fr with
  | Some v => (Some v, snd (probe url fr w), [(url, fr)])
  | None =>
      let '(r, w', log) :=
        for_candidates net apiKey rest (S n) (snd (probe url fr w)) in
      (r, w', (url, fr) :: log)
  end.
Proof.
  intros fr. simpl. fold fr.
  pose proof (probe_returns url fr w) as Hret.
  destruct (probe url fr w) as [c w1]; simpl in *.
  destruct (result_of fr) as [v|].
  - rewrite (proj2 (Hret v) eq_refl). reflexivity.
  - destruct c; try reflexivity.
    discriminate (proj1 (Hret v) eq_refl).
Qed.

Lemma for_candidates_working (cs : list string) :
  forall n w r w' log,
    for_candidates net apiKey cs n w = (r, w', log) ->
    w' = match w with Some u => Some u | None => first_pin log end.
Proof.
  induction cs as [|url rest IH]; intros n w r w' log.
  - simpl. intros [= <- <- <-]. now destruct w.
  - rewrite for_candidates_cons. cbv zeta.
    set (fr := net n (status_request apiKey url)).
    pose proof (probe_working url fr w) as Hw.
    destruct (result_of fr) as [v|].
    + intros [= <- <- <-]. rewrite Hw. simpl.
      destruct w; [reflexivity|]. now destruct (pins fr).
    + destruct (for_candidates net apiKey rest (S n) (snd (probe url fr w)))
        as [[r1 w1] log1] eqn:Hrec.
      intros [= <- <- <-]. apply IH in Hrec. rewrite Hrec, Hw. simpl.
      destruct w; [reflexivity|]. now destruct (pins fr).
Qed.

(** A loop that does not return has probed every candidate, in order. *)
Lemma for_candidates_none (cs : list string) :
  forall n w w' log,
    for_candidates net apiKey cs n w = (None, w', log) ->
    map fst log = cs /\ Forall no_result log.
Proof.
  induction cs as [|url rest IH]; intros n w w' log.
  - simpl. intros [= <- <-]. now split.
  - rewrite for_candidates_cons. cbv zeta.
    set (fr := net n (status_request apiKey url)).
    destruct (result_of fr) as [v|] eqn:Hres; [discriminate|].
    destruct (for_candidates net apiKey rest (S n) (snd (probe url fr w)))
      as [[r1 w1] log1] eqn:Hrec.
    intros [= -> <- <-]. apply IH in Hrec as [Hm Hf].
    simpl. split; [now rewrite Hm|]. now constructor.
Qed.

(** A loop that returns has probed a prefix of the candidates, and the
    last probe is the one that returned. *)
Lemma for_candidates_some (cs : list string) :
  forall n w v w' log,
    for_candidates net apiKey cs n w = (Some v, w', log) ->
    exists pre u fr rest,
      log = (pre ++ [(u, fr)])%list /\ result_of fr = Some v
      /\ Forall no_result pre /\ cs = (map fst log ++ rest)%list.
Proof.
  induction cs as [|url rest IH]; intros n w v w' log.
  - simpl. discriminate.
  - rewrite for_candidates_cons. cbv zeta.
    set (fr := net n (status_request apiKey url)).
    destruct (result_of fr) as [v0|] eqn:Hres.
    + intros [= <- <- <-]. exists [], url, fr, rest. now repeat split.
    + destruct (for_candidates net apiKey rest (S n) (snd (probe url fr w)))
        as [[r1 w1] log1] eqn:Hrec.
      intros [= -> <- <-].
      apply IH in Hrec as (pre & u & fr' & rest' & -> & Hv & Hf & ->).
      exists ((url, fr) :: pre), u, fr', rest'.
      repeat split; try assumption. now constructor.
Qed.

(** Every probe of the loop is an answer of the provider to a status
    request for the candidate. *)
Lemma for_candidates_answers (cs : list string) :
  forall n w r w' log,
    for_candidates net apiKey cs n w = (r, w', log) ->
    Forall (fun p => exists k, snd p = net k (status_request apiKey (fst p))) log.
Proof.
  induction cs as [|url rest IH]; intros n w r w' log.
  - simpl. intros [= <- <- <-]. constructor.
  - rewrite for_candidates_cons. cbv zeta.
    set (fr := net n (status_request apiKey url)).
    destruct (result_of fr) as [v0|].
    + intros [= <- <- <-]. constructor; [now exists n | constructor].
    + destruct (for_candidates net apiKey rest (S n) (snd (probe url fr w)))
        as [[r1 w1] log1] eqn:Hrec.
      intros [= <- <- <-]. constructor; [now exists n | eauto].
Qed.

(** When no answer of the provider makes the poller return, the loop over
    the candidates does not return. *)
Lemma for_candidates_no_result (cs : list string) (n : nat) (w : option string) :
  (forall k rq, result_of (net k rq) = None) ->
  exists w' log, for_candidates net apiKey cs n w = (None, w', log).
Proof.
  intros Hnone.
  destruct (for_candidates net apiKey cs n w) as [[[v|] w'] log] eqn:Hfc; [|eauto].
  pose proof (for_candidates_answers _ _ _ _ _ _ Hfc) as Hans.
  apply for_candidates_some in Hfc as (pre & u & fr & rest & -> & Hv & _ & _).
  apply Forall_app in Hans as [_ Hlast].
  inversion Hlast as [|p l [k Hk] _]; subst. simpl in Hk.
  rewrite Hk, Hnone in Hv. discriminate.
Qed.

End Candidates.

Section Attempts.

Variable net : provider.
Variable apiKey : string.
Variable eps : list string.
Variable intervalMs : Z.

Lemma all_probes_cons (r : round_log) (rounds : list round_log) :
  all_probes (r :: rounds) = (probes r ++ all_probes rounds)%list.
Proof. reflexivity. Qed.

(** The two ways the loop over the attempts ends: a value, returned by the
    very last probe, no earlier probe having returned; or the timeout error,
    after [remaining] attempts that each slept, no probe having returned. *)
Lemma attempts_result (k : nat) :
  forall n w out rounds,
    attempts net apiKey eps intervalMs k n w = (out, rounds) ->
    match out with
    | Ok v =>
        exists pre u fr,
          all_probes rounds = (pre ++ [(u, fr)])%list
          /\ result_of fr = Some v /\ Forall no_result pre
    | Raise e =>
        e = timeout_error
        /\ Forall no_result (all_probes rounds)
        /\ List.length rounds = k
        /\ Forall (fun r => slept r = Some intervalMs) rounds
    end.
Proof.
  induction k as [|k IH]; intros n w out rounds; simpl.
  - intros [= <- <-]. repeat split; constructor.
  - destruct (for_candidates net apiKey (candidates w eps) n w)
      as [[[v|] w1] log] eqn:Hfc.
    + intros [= <- <-].
      apply for_candidates_some in Hfc as (pre & u & fr & rest & -> & Hv & Hf & _).
      exists pre, u, fr. unfold all_probes. simpl. rewrite app_nil_r. auto.
    + destruct (attempts net apiKey eps intervalMs k (n + List.length log) w1)
        as [out1 rounds1] eqn:Hrec.
      intros [= <- <-]. apply IH in Hrec.
      apply for_candidates_none in Hfc as [_ Hf].
      rewrite all_probes_cons.
      destruct out1 as [v|e].
      * destruct Hrec as (pre & u & fr & Hall & Hv & Hpre).
        exists (log ++ pre)%list, u, fr. rewrite Hall, app_assoc.
        repeat split; try assumption. apply Forall_app. now split.
      * destruct Hrec as (-> & Hno & Hlen & Hsl).
        repeat split.
        -- apply Forall_app. now split.
        -- simpl. now rewrite Hlen.
        -- now constructor.
Qed.

(** When no answer of the provider makes the poller return, the attempts
    run out. *)
Lemma attempts_exhausted (k n : nat) (w : option string) :
  (forall c rq, result_of (net c rq) = None) ->
  exists rounds,
    attempts net apiKey eps intervalMs k n w = (Raise timeout_error, rounds).
Proof.
  intros Hnone. revert n w.
  induction k as [|k IH]; intros n w; simpl; [now eexists|].
  destruct (for_candidates_no_result net apiKey (candidates w eps) n w Hnone)
    as (w1 & log & ->).
  destruct (IH (n + List.length log) w1) as [rounds ->]. now eexists.
Qed.

(** The candidates probed by each attempt, given [working] at the start and
    the probes of the attempts before it. *)
Lemma attempts_pinning (k : nat) :
  forall n w out rounds pre r post,
    attempts net apiKey eps intervalMs k n w = (out, rounds) ->
    rounds = (pre ++ r :: post)%list ->
    match
      match w with Some u => Some u | None => first_pin (all_probes pre) end
    with
    | Some u => map fst (probes r) = [u]
    | None =>
        match slept r with
        | Some _ => map fst (probes r) = eps
        | None => exists rest, eps = (map fst (probes r) ++ rest)%list
        end
    end.
Proof.
  induction k as [|k IH]; intros n w out rounds pre r post; simpl.
  - intros [= <- <-] Hsplit. now destruct pre.
  - destruct (for_candidates net apiKey (candidates w eps) n w)
      as [[[v|] w1] log] eqn:Hfc.
    + intros [= <- <-] Hsplit.
      assert (pre = [] /\ r = {| probes := log; slept := None |}) as [-> ->].
      { destruct pre as [|r0 pre]; simpl in Hsplit.
        - now injection Hsplit as <- _.
        - injection Hsplit as _ Hnil. now destruct pre. }
      apply for_candidates_some in Hfc as (p & u & fr & rest & Hlog & _ & _ & Hcs).
      simpl. destruct w as [u0|]; simpl in *.
      * rewrite Hlog, map_app in Hcs. simpl in Hcs.
        destruct p as [|q p]; simpl in Hcs.
        -- injection Hcs as -> _. now rewrite Hlog.
        -- injection Hcs as _ Hnil.
           apply (f_equal (@List.length string)) in Hnil.
           rewrite !length_app in Hnil. simpl in Hnil. lia.
      * now exists rest.
    + destruct (attempts net apiKey eps intervalMs k (n + List.length log) w1)
        as [out1 rounds1] eqn:Hrec.
      intros [= <- <-] Hsplit.
      pose proof (for_candidates_working _ _ _ _ _ _ _ _ Hfc) as Hw.
      apply for_candidates_none in Hfc as [Hm _].
      destruct pre as [|r0 pre]; simpl in Hsplit.
      * injection Hsplit as <- _. simpl. now destruct w.
      * injection Hsplit as <- Hrest.
        specialize (IH _ _ _ _ _ _ _ Hrec Hrest).
        rewrite all_probes_cons, first_pin_app. simpl.
        rewrite Hw in IH. destruct w as [u0|]; [exact IH|].
        destruct (first_pin log); exact IH.
Qed.

End Attempts.

Lemma or_else_assoc (a b c : value) :
  or_else (or_else a b) c = or_else a (or_else b c).
Proof.
  unfold or_else. destruct (truthy a) eqn:Ha; [now rewrite Ha|reflexivity].
Qed.

Lemma or_m_ok (a b : value) : or_m (Ok a) (Ok b) = Ok (or_else a b).
Proof. unfold or_m, or_else. simpl. now destruct (truthy a). Qed.

Lemma image_url_from_image (image : value) :
  nullish image = false -> image_url image = Ok (from_image image).
Proof.
  intros Hn. unfold image_url, from_image, first_truthy, get.
  rewrite Hn, !or_m_ok. simpl. now rewrite !or_else_assoc.
Qed.

Lemma log_prefix_string_or_falsy (expr : string) (v : value) :
  string_or_falsy v = true -> log_prefix expr v = Ok tt.
Proof.
  unfold log_prefix, string_or_falsy.
  destruct v as [| |b|z|s|l|fs]; simpl; intros H;
    try reflexivity; try discriminate.
  - apply negb_true_iff in H. now rewrite H.
  - apply negb_true_iff in H. now rewrite H.
  - now destruct (negb (s =? "")).
Qed.

(** On a typed payload the success branch returns the artifact in the
    order of preference of the specification. *)
Lemma extract_artifact (d : value) :
  artifact_typed d = true -> extract d = Return (artifact d).
Proof.
  unfold extract, artifact, artifact_typed, top_level, first_truthy.
  assert (Htop : Return (or_else (or_else (prop d "url") (prop d "image_url")) VNull)
                 = Return (fold_right or_else VNull [prop d "url"; prop d "image_url"])).
  { simpl. now rewrite or_else_assoc. }
  destruct (prop d "generated") as [| |b|z|s|l|fs]; simpl; try exact (fun _ => Htop).
  - destruct b; intros _; exact Htop.
  - destruct (negb (z =? 0)%Z); intros _; exact Htop.
  - destruct s; simpl; [intros _; exact Htop | discriminate].
  - destruct l as [|image l]; simpl; [intros _; exact Htop|].
    intros H. apply andb_true_iff in H as [Hn Hs]. apply negb_true_iff in Hn.
    rewrite (image_url_from_image _ Hn).
    unfold from_image, first_truthy in Hs.
    now rewrite (log_prefix_string_or_falsy _ _ Hs).
  - intros H. apply negb_true_iff in H. rewrite H. exact Htop.
Qed.

Lemma result_of_success (fr : fetch_result) (d : value) :
  status_payload fr = Some d ->
  is_success (status_of d) = true ->
  artifact_typed d = true ->
  result_of fr = Some (artifact d).
Proof.
  intros Hp Hs Ht. unfold result_of.
  now rewrite Hp, Hs, (extract_artifact _ Ht).
Qed.

Lemma non_terminal_no_result (fr : fetch_result) :
  non_terminal fr = true -> result_of fr = None.
Proof.
  unfold non_terminal, result_of.
  destruct (status_payload fr) as [d|]; [|reflexivity].
  intros H. apply andb_true_iff in H as [H _]. apply negb_true_iff in H.
  now rewrite H.
Qed.

(** What happens to a FAILED or ERROR status inside one iteration: the
    [try] throws the task failure, the [catch] drops it, and the iteration
    ends normally, so that the loop goes on. *)
Lemma failed_status_throw_is_caught
    (url : string) (fr : fetch_result) (w : option string) (d : value) :
  status_payload fr = Some d ->
  is_failure (status_of d) = true ->
  (exists s, status_of d = VStr s
             /\ fst (try_block url fr w) = Throw (Error ("Task failed: " ++ s)))
  /\ fst (probe url fr w) = Normal.
Proof.
  unfold status_payload, status_of, is_failure, probe, try_block, read_json.
  destruct fr as [e|r]; [discriminate|].
  destruct (ok r); simpl; [|discriminate].
  destruct (json r) as [data|]; [|discriminate].
  destruct (truthy data && truthy (prop data "data")); [|discriminate].
  intros [= <-] Hf.
  destruct (prop (prop data "data") "status") as [| |b|z|s|l|fs]; try discriminate.
  simpl in Hf |- *.
  apply orb_true_iff in Hf as [Hf | Hf]; apply String.eqb_eq in Hf; subst s;
    simpl; split; eauto.
Qed.

(** C1, on the code: a FAILED status does not end the session.  The
    exception thrown for it is thrown inside the [try] of the candidate
    loop and dropped by its [catch]: when every answer is
    [{data: {status: "FAILED"}}] the poller runs through all its attempts
    and raises the timeout error, for every [maxAttempts]. *)
Theorem failed_status_is_swallowed (maxAttempts : nat) :
  exists rounds,
    pollFreepikTask (always failed_body) (VStr "T1") "k" maxAttempts 2000 0
    = (Raise (Error "Freepik polling timeout"), rounds)
    /\ List.length rounds = maxAttempts
    /\ Forall (fun r => slept r = Some 2000%Z) rounds.
Proof.
  unfold pollFreepikTask. simpl to_string.
  destruct (attempts_exhausted (always failed_body) "k" (endpoints "T1") 2000
              maxAttempts 0 None) as [rounds Hr]; [reflexivity|].
  exists rounds. split; [exact Hr|].
  apply attempts_result in Hr. tauto.
Qed.

(** The same session with three attempts, probe by probe: the first
    attempt asks all three candidates (each answers FAILED), the next two
    ask the pinned one, and the error is the timeout. *)
Example failed_status_three_attempts :
  let (out, rounds) :=
    pollFreepikTask (always failed_body) (VStr "T1") "k" 3 2000 0 in
  out = Raise (Error "Freepik polling timeout")
  /\ map (fun r => map fst (probes r)) rounds
     = [ endpoints "T1";
         ["https://api.freepik.com/v1/ai/mystic/T1"];
         ["https://api.freepik.com/v1/ai/mystic/T1"] ].
Proof. vm_compute. split; reflexivity. Qed.

(** C2, counterexample: against a provider that always answers
    [{data: {}}] no candidate ever shows a status field, yet the second
    attempt queries the first candidate alone, not the full list. *)
Lemma pinned_without_status_field : ~ pinning_on_status_field.
Proof.
  intros H.
  specialize (H (always bare_body) (VStr "T1") "T1" "k" 2 2000%Z 0
                (fst bare_session) (snd bare_session)
                [nth 0 (snd bare_session) empty_round] []
                (nth 1 (snd bare_session) empty_round)
                eq_refl eq_refl eq_refl).
  vm_compute in H. discriminate H.
Qed.

(** C2, amended: pinning by the pin condition of the code.  In every
    session, for every attempt [r]: when some candidate answered, in an
    earlier attempt, a 2xx JSON body with a truthy [data] (with or without
    a status field), the first such candidate is the only one that [r]
    queries; when none did, [r] tries the full ordered list of candidates
    (up to the candidate on which the session returns, when it returns
    during [r]). *)
Theorem pinned_candidate_is_reused
    (net : provider) (taskId : value) (tid apiKey : string) (maxAttempts : nat)
    (intervalMs : Z) (calls : nat) (out : res value)
    (rounds pre post : list round_log) (r : round_log) :
  to_string taskId = Ok tid ->
  pollFreepikTask net taskId apiKey maxAttempts intervalMs calls = (out, rounds) ->
  rounds = (pre ++ r :: post)%list ->
  match first_pin (all_probes pre) with
  | Some u => map fst (probes r) = [u]
  | None =>
      match slept r with
      | Some _ => map fst (probes r) = endpoints tid
      | None => exists rest, endpoints tid = (map fst (probes r) ++ rest)%list
      end
  end.
Proof.
  unfold pollFreepikTask. intros -> Hpoll Hsplit.
  exact (attempts_pinning net apiKey (endpoints tid) intervalMs maxAttempts
           calls None out rounds pre r post Hpoll Hsplit).
Qed.

Lemma pinned_candidate_is_reused_witness :
  map fst (probes (nth 1 (snd in_progress_session) empty_round))
  = ["https://api.freepik.com/v1/ai/mystic/T1"].
Proof.
  exact (pinned_candidate_is_reused (always in_progress_body) (VStr "T1") "T1" "k"
           2 2000 0 (fst in_progress_session) (snd in_progress_session)
           [nth 0 (snd in_progress_session) empty_round] []
           (nth 1 (snd in_progress_session) empty_round)
           eq_refl eq_refl eq_refl).
Defined.

(** C3: when every answer of the provider is non-terminal, the poller
    raises the timeout error after exactly [maxAttempts] attempts, each of
    which ran to its delay; no value is returned. *)
Theorem non_terminal_times_out
    (net : provider) (taskId : value) (tid apiKey : string) (maxAttempts : nat)
    (intervalMs : Z) (calls : nat) :
  to_string taskId = Ok tid ->
  (forall c rq, non_terminal (net c rq) = true) ->
  exists rounds,
    pollFreepikTask net taskId apiKey maxAttempts intervalMs calls
    = (Raise (Error "Freepik polling timeout"), rounds)
    /\ List.length rounds = maxAttempts
    /\ Forall (fun r => slept r = Some intervalMs) rounds.
Proof.
  unfold pollFreepikTask. intros -> Hnt.
  destruct (attempts_exhausted net apiKey (endpoints tid) intervalMs
              maxAttempts calls None) as [rounds Hr].
  { intros c rq. apply non_terminal_no_result, Hnt. }
  exists rounds. split; [exact Hr|].
  apply attempts_result in Hr. tauto.
Qed.

Lemma non_terminal_times_out_witness :
  exists rounds,
    pollFreepikTask (always in_progress_body) (VStr "T1") "k" 3 2000 0
    = (Raise (Error "Freepik polling timeout"), rounds)
    /\ List.length rounds = 3
    /\ Forall (fun r => slept r = Some 2000%Z) rounds.
Proof.
  apply (non_terminal_times_out (always in_progress_body) (VStr "T1") "T1" "k" 3 2000 0).
  - reflexivity.
  - intros c rq. reflexivity.
Defined.

(** X24: when a probe of the session observes the status COMPLETED or
    SUCCESS on a typed payload, the session returns the artifact in the
    order of preference (first generated element by url, image_url,
    imageUrl, src, then itself if a string; else top-level url, then
    image_url; possibly null), and that probe is the last of the session. *)
Theorem success_returns_artifact
    (net : provider) (taskId : value) (apiKey : string) (maxAttempts : nat)
    (intervalMs : Z) (calls : nat) (out : res value) (rounds : list round_log)
    (i : nat) (url : string) (fr : fetch_result) (d : value) :
  pollFreepikTask net taskId apiKey maxAttempts intervalMs calls = (out, rounds) ->
  nth_error (all_probes rounds) i = Some (url, fr) ->
  status_payload fr = Some d ->
  is_success (status_of d) = true ->
  artifact_typed d = true ->
  out = Ok (artifact d) /\ S i = List.length (all_probes rounds).
Proof.
  unfold pollFreepikTask. intros Hpoll Hnth Hp Hs Ht.
  pose proof (result_of_success fr d Hp Hs Ht) as Hres.
  destruct (to_string taskId) as [tid|e].
  2:{ injection Hpoll as <- <-. now destruct i. }
  apply attempts_result in Hpoll.
  destruct out as [v|e].
  - destruct Hpoll as (pre & u & fr' & Hall & Hv & Hpre).
    rewrite Hall in Hnth |- *. rewrite length_app. simpl.
    destruct (Nat.lt_ge_cases i (List.length pre)) as [Hlt | Hge].
    + rewrite nth_error_app1 in Hnth by assumption.
      apply nth_error_In in Hnth.
      rewrite Forall_forall in Hpre. apply Hpre in Hnth.
      unfold no_result in Hnth. simpl in Hnth. congruence.
    + rewrite nth_error_app2 in Hnth by assumption.
      destruct (i - List.length pre) as [|j] eqn:Hi; simpl in Hnth.
      * injection Hnth as -> ->. split; [congruence | lia].
      * now destruct j.
  - destruct Hpoll as (_ & Hno & _).
    apply nth_error_In in Hnth. rewrite Forall_forall in Hno.
    apply Hno in Hnth. unfold no_result in Hnth. simpl in Hnth. congruence.
Qed.

Lemma success_returns_artifact_witness :
  fst completed_session = Ok (VStr "https://x/a.png")
  /\ 1 = List.length (all_probes (snd completed_session)).
Proof.
  exact (success_returns_artifact (always completed_body) (VStr "T1") "k" 2 2000 0
           (fst completed_session) (snd completed_session) 0
           "https://api.freepik.com/v1/ai/mystic/T1"
           (always completed_body 0
              (status_request "k" "https://api.freepik.com/v1/ai/mystic/T1"))
           (prop completed_body "data")
           eq_refl eq_refl eq_refl eq_refl eq_refl).
Defined.

(** C9: a candidate whose 2xx answer parses to a body with a truthy
    [data] is pinned whatever the status that the log line can print; in
    particular with no status field at all, where the iteration ends
    normally with [working] set to the candidate. *)
Theorem truthy_data_pins
    (url : string) (r : response) (data : value) :
  ok r = true ->
  json r = Some data ->
  truthy data = true ->
  truthy (prop data "data") = true ->
  (printable (prop (prop data "data") "status") = true ->
   snd (probe url (Response r) None) = Some url)
  /\ (prop (prop data "data") "status" = VUndefined ->
      probe url (Response r) None = (Normal, Some url)).
Proof.
  intros Hok Hj Hd Hdd. split.
  - intros Hp. rewrite probe_working.
    unfold pins, status_payload, status_of.
    rewrite Hok, Hj, Hd, Hdd. simpl. now rewrite Hp.
  - intros Hst. unfold probe, try_block, read_json.
    rewrite Hok, Hj, Hd, Hdd. simpl. now rewrite Hst.
Qed.

Lemma truthy_data_pins_witness :
  probe "https://api.freepik.com/v1/ai/mystic/T1" (Response bare_data) None
  = (Normal, Some "https://api.freepik.com/v1/ai/mystic/T1").
Proof.
  exact (proj2 (truthy_data_pins "https://api.freepik.com/v1/ai/mystic/T1" bare_data
                  (VObj [("data", VObj [])]) eq_refl eq_refl eq_refl eq_refl)
               eq_refl).
Defined.

End PollerFacts.

(** ** Properties of the handler *)

Module ServerFacts.
Import JS Net Poller Server PollerSpec ServerSpec PollerFacts.

Lemma finish_effects (x : res reply * effects) : snd (finish x) = snd x.
Proof. now destruct x as [[r|e] eff]. Qed.

Lemma on_result_submitted (net : provider) (apiKey : string) (rq : request)
    (result : value) :
  submitted (snd (on_result net apiKey rq result)) = [rq].
Proof.
  unfold on_result.
  destruct (to_string (get_opt (get_opt result "data") "task_id")); [|reflexivity].
  destruct (to_string (get_opt (get_opt result "data") "status")); [|reflexivity].
  destruct (is_task_handle result).
  - destruct (pollFreepikTask net _ apiKey 60 2000 1) as [[u|e] rounds]; reflexivity.
  - destruct (log_prefix "direct" (direct result)); reflexivity.
Qed.

Lemma submit_submitted (net : provider) (apiKey : string) (rq : request) :
  submitted (snd (submit net apiKey rq)) = [rq].
Proof.
  unfold submit, on_response.
  destruct (net 0 rq) as [e|resp]; [reflexivity|].
  destruct (negb (ok resp)).
  - destruct (status resp =? 429)%Z; reflexivity.
  - destruct (read_json resp); [apply on_result_submitted | reflexivity].
Qed.

(** A handler that has called the provider went through [submit], with the
    key of the environment. *)
Lemma generate_after_submission (net : provider) (env_key : option string)
    (req_body : value) (rq : request) :
  submitted (snd (generate net env_key req_body)) = [rq] ->
  exists apiKey,
    env_key = Some apiKey
    /\ rq = submit_request apiKey (prompt_of req_body) (aspect_ratio_of req_body)
    /\ generate net env_key req_body = finish (submit net apiKey rq).
Proof.
  unfold generate, generate_try, prompt_of, aspect_ratio_of.
  rewrite finish_effects.
  destruct env_key as [[|c k]|]; simpl; try discriminate.
  set (b := or_else req_body (VObj [])).
  destruct (log_prefix "prompt" (prop b "prompt")); simpl; [|discriminate].
  destruct (to_string (prop b "aspect_ratio")); simpl; [|discriminate].
  destruct (negb (truthy (prop b "prompt"))); simpl; [discriminate|].
  rewrite submit_submitted. intros [= <-]. now eexists.
Qed.

(** C10: the credential check comes first.  Without a key in the
    environment (absent or empty) the reply is the configuration error
    whatever the request body, a missing prompt included, and the provider
    is not called. *)
Theorem key_check_precedes_prompt_check (net : provider) (req_body : value) :
  generate net None req_body
  = (error_reply 400 "Freepik API key missing on server", no_effects)
  /\ generate net (Some "") req_body
     = (error_reply 400 "Freepik API key missing on server", no_effects)
  /\ provider_calls no_effects = 0
  /\ error_reply 400 "Freepik API key missing on server"
     <> error_reply 400 "prompt required".
Proof. repeat split. discriminate. Qed.

(** C4: a request whose prompt is missing or empty (falsy) never reaches
    the provider; with a key configured and an aspect ratio that the log
    line can print, the reply is the validation error "prompt required". *)
Theorem missing_prompt_fails_before_any_call
    (net : provider) (env_key : option string) (req_body : value) :
  truthy (prompt_of req_body) = false ->
  provider_calls (snd (generate net env_key req_body)) = 0
  /\ (forall apiKey,
        env_key = Some apiKey -> apiKey <> "" ->
        printable (aspect_ratio_of req_body) = true ->
        generate net env_key req_body
        = (error_reply 400 "prompt required", no_effects)).
Proof.
  unfold generate, generate_try, prompt_of, aspect_ratio_of, printable, log_prefix.
  set (b := or_else req_body (VObj [])). intros Hp. rewrite Hp. simpl. split.
  - destruct env_key as [[|c k]|]; simpl; try reflexivity.
    destruct (to_string (prop b "aspect_ratio")); reflexivity.
  - intros apiKey -> Hne Hpr.
    destruct apiKey as [|c k]; [congruence|].
    destruct (to_string (prop b "aspect_ratio")); [reflexivity | discriminate].
Qed.

Lemma missing_prompt_fails_before_any_call_witness :
  provider_calls (snd (generate (always completed_body) (Some "k") (VObj []))) = 0
  /\ generate (always completed_body) (Some "k") (VObj [])
     = (error_reply 400 "prompt required", no_effects).
Proof.
  destruct (missing_prompt_fails_before_any_call
              (always completed_body) (Some "k") (VObj []) eq_refl) as [Hcalls Hreply].
  split; [exact Hcalls|].
  apply (Hreply "k"); [reflexivity | discriminate | reflexivity].
Defined.

(** C5: when the answer to the submission has status 429, whatever its
    body, the reply is status 429 with the remediation message and
    [quota_exceeded: true]; it is not the generic provider error, and the
    poller is not invoked. *)
Theorem status_429_is_quota_exceeded
    (net : provider) (env_key : option string) (req_body : value)
    (rq : request) (r : response) :
  submitted (snd (generate net env_key req_body)) = [rq] ->
  net 0 rq = Response r ->
  status r = 429%Z ->
  generate net env_key req_body
  = ({| code := 429;
        payload := VObj [("error", VStr quota_message);
                         ("quota_exceeded", VBool true)] |}, sent rq)
  /\ (forall c msg, fst (generate net env_key req_body) <> error_reply c msg).
Proof.
  intros Hsub Hnet Hst.
  destruct (generate_after_submission _ _ _ _ Hsub) as (apiKey & _ & _ & Hgen).
  rewrite Hgen. unfold submit, on_response, ok. rewrite Hnet, Hst. simpl.
  split; [reflexivity | discriminate].
Qed.

Lemma status_429_is_quota_exceeded_witness :
  generate too_many_requests (Some "k") cat_request
  = ({| code := 429;
        payload := VObj [("error", VStr quota_message);
                         ("quota_exceeded", VBool true)] |}, sent cat_submission).
Proof.
  exact (proj1 (status_429_is_quota_exceeded too_many_requests (Some "k") cat_request
                  cat_submission
                  {| status := 429; text := "slow down"; json := None |}
                  eq_refl eq_refl eq_refl)).
Defined.

(** C7, counterexample: the answer [handle_with_url] embeds a url, yet the
    handler polls the task and replies the url that the poller found. *)
Lemma embedded_result_of_handle_is_polled :
  ~ unguarded_round_trip.
Proof.
  intros H.
  specialize (H handle_then_completed (Some "k") cat_request cat_submission
                {| status := 200; text := ""; json := Some handle_with_url |}
                handle_with_url "https://x/early.png"
                eq_refl eq_refl eq_refl eq_refl eq_refl).
  assert (Hne : "https://x/early.png" <> "") by discriminate.
  specialize (H Hne). vm_compute in H. discriminate H.
Qed.

(** C7, amended: a 2xx answer that is not a task handle, whose task_id and
    status the log line can print, and whose embedded result (url, then
    image_url) is a non-empty string, is replied as exactly that string
    with status 200; the submission is the only call and the poller is not
    invoked. *)
Theorem embedded_result_round_trip
    (net : provider) (env_key : option string) (req_body : value)
    (rq : request) (r : response) (result : value) (s : string) :
  submitted (snd (generate net env_key req_body)) = [rq] ->
  net 0 rq = Response r ->
  ok r = true ->
  json r = Some result ->
  is_task_handle result = false ->
  printable (task_id_of result) = true ->
  printable (handle_status_of result) = true ->
  embedded result = VStr s ->
  s <> "" ->
  generate net env_key req_body = (url_reply (VStr s), sent rq)
  /\ polled (snd (generate net env_key req_body)) = None
  /\ provider_calls (snd (generate net env_key req_body)) = 1.
Proof.
  unfold printable, task_id_of, handle_status_of, embedded.
  intros Hsub Hnet Hok Hj Hh Hpt Hps He Hne.
  destruct (generate_after_submission _ _ _ _ Hsub) as (apiKey & _ & _ & Hgen).
  assert (Hd : direct result = VStr s).
  { unfold direct. rewrite He. unfold or_else at 2. simpl.
    destruct s; [congruence | reflexivity]. }
  assert (generate net env_key req_body = (url_reply (VStr s), sent rq)) as ->.
  { rewrite Hgen. unfold submit, on_response, read_json, on_result.
    rewrite Hnet, Hok, Hj. simpl.
    destruct (to_string (get_opt (get_opt result "data") "task_id")); [|discriminate].
    destruct (to_string (get_opt (get_opt result "data") "status")); [|discriminate].
    rewrite Hh, Hd. unfold log_prefix. simpl.
    destruct s; [congruence | reflexivity]. }
  repeat split.
Qed.

Lemma embedded_result_round_trip_witness :
  generate (always direct_body) (Some "k") cat_request
  = (url_reply (VStr "https://x/direct.png"), sent cat_submission)
  /\ polled (snd (generate (always direct_body) (Some "k") cat_request)) = None
  /\ provider_calls (snd (generate (always direct_body) (Some "k") cat_request)) = 1.
Proof.
  apply (embedded_result_round_trip (always direct_body) (Some "k") cat_request
           cat_submission
           {| status := 200; text := ""; json := Some direct_body |}
           direct_body "https://x/direct.png");
    try reflexivity.
  discriminate.
Defined.

(** C8, counterexample: a 2xx answer whose body is not JSON shows neither
    a task handle nor a result, yet [resp.json()] throws and the reply is
    status 500, an error. *)
Lemma unparsable_answer_is_not_null_success : ~ null_success_on_every_answer.
Proof.
  intros H.
  specialize (H html_answer (Some "k") cat_request cat_submission
                {| status := 200; text := "<html>"; json := None |}
                eq_refl eq_refl eq_refl eq_refl eq_refl).
  vm_compute in H. discriminate H.
Qed.

(** C8, amended: a 2xx answer whose body is JSON, that is neither a task
    handle nor carries a result (no truthy url or image_url under data, no
    truthy top-level url), and whose task_id and status the log line can
    print, is replied with status 200 and [{url: null}]: a success, not an
    error. *)
Theorem no_result_is_null_success
    (net : provider) (env_key : option string) (req_body : value)
    (rq : request) (r : response) (result : value) :
  submitted (snd (generate net env_key req_body)) = [rq] ->
  net 0 rq = Response r ->
  ok r = true ->
  json r = Some result ->
  is_task_handle result = false ->
  printable (task_id_of result) = true ->
  printable (handle_status_of result) = true ->
  truthy (embedded result) = false ->
  truthy (get_opt result "url") = false ->
  generate net env_key req_body
  = ({| code := 200; payload := VObj [("url", VNull)] |}, sent rq).
Proof.
  unfold printable, task_id_of, handle_status_of, embedded.
  intros Hsub Hnet Hok Hj Hh Hpt Hps He Hu.
  destruct (generate_after_submission _ _ _ _ Hsub) as (apiKey & _ & _ & Hgen).
  assert (Hd : direct result = VNull).
  { unfold direct. unfold or_else at 2. rewrite He.
    unfold or_else at 1. now rewrite Hu. }
  rewrite Hgen. unfold submit, on_response, read_json, on_result.
  rewrite Hnet, Hok, Hj. simpl.
  destruct (to_string (get_opt (get_opt result "data") "task_id")); [|discriminate].
  destruct (to_string (get_opt (get_opt result "data") "status")); [|discriminate].
  now rewrite Hh, Hd.
Qed.

Lemma no_result_is_null_success_witness :
  generate (always (VObj [])) (Some "k") cat_request
  = ({| code := 200; payload := VObj [("url", VNull)] |}, sent cat_submission).
Proof.
  exact (no_result_is_null_success (always (VObj [])) (Some "k") cat_request
           cat_submission
           {| status := 200; text := ""; json := Some (VObj []) |}
           (VObj [])
           eq_refl eq_refl eq_refl eq_refl eq_refl eq_refl eq_refl eq_refl eq_refl).
Defined.

End ServerFacts.

(** ** Further properties of the poller *)

Module PollerExtras.
Import JS Net Poller PollerSpec ExtraSpec PollerFacts.

Lemma first_pin_in (log : list (string * fetch_result)) (u : string) :
  first_pin log = Some u -> In u (map fst log).
Proof.
  induction log as [|[u0 fr] log IH]; simpl; [discriminate|].
  destruct (pins fr); [intros [= ->]; now left | auto].
Qed.

Section Loops.

Variable net : provider.
Variable apiKey : string.

(** The probes of one attempt are consecutive calls to the provider, one
    per candidate, in the order of the candidates. *)
Lemma for_candidates_calls (cs : list string) :
  forall n w r w' log,
    for_candidates net apiKey cs n w = (r, w', log) ->
    forall i url fr,
      nth_error log i = Some (url, fr) ->
      fr = net (n + i) (status_request apiKey url) /\ nth_error cs i = Some url.
Proof.
  induction cs as [|c rest IH]; intros n w r w' log.
  - simpl. intros [= <- <- <-] i url fr Hnth. now destruct i.
  - rewrite for_candidates_cons. cbv zeta.
    destruct (result_of (net n (status_request apiKey c))) as [v|].
    + intros [= <- <- <-] i url fr Hnth.
      destruct i as [|i]; simpl in Hnth; [|now destruct i].
      injection Hnth as <- <-. now rewrite Nat.add_0_r.
    + destruct (for_candidates net apiKey rest (S n) _) as [[r1 w1] log1] eqn:Hrec.
      intros [= <- <- <-] i url fr Hnth.
      destruct i as [|i]; simpl in Hnth.
      * injection Hnth as <- <-. now rewrite Nat.add_0_r.
      * destruct (IH _ _ _ _ _ Hrec i url fr Hnth) as [Hfr Hcs].
        split; [|exact Hcs]. now rewrite Nat.add_succ_r.
Qed.

(** An attempt probes at least one candidate when there is one, and never
    more than there are. *)
Lemma for_candidates_length (cs : list string) (n : nat) (w : option string)
    (r : option value) (w' : option string) (log : list (string * fetch_result)) :
  for_candidates net apiKey cs n w = (r, w', log) ->
  List.length log <= List.length cs /\ (cs <> [] -> log <> []).
Proof.
  intros Hfc. destruct r as [v|].
  - apply for_candidates_some in Hfc as (pre & u & fr & rest & -> & _ & _ & ->).
    rewrite !length_app, length_map, length_app. split; [lia|].
    intros _ H. now destruct pre.
  - apply for_candidates_none in Hfc as [<- _].
    rewrite length_map. split; [lia|]. intros H ->. now apply H.
Qed.

Variable eps : list string.
Variable intervalMs : Z.

(** The calls of a session are numbered consecutively from [n], and every
    one of them is a status request for a candidate of the list. *)
Lemma attempts_calls (k : nat) :
  forall n w out rounds,
    (forall u, w = Some u -> In u eps) ->
    attempts net apiKey eps intervalMs k n w = (out, rounds) ->
    forall i url fr,
      nth_error (all_probes rounds) i = Some (url, fr) ->
      fr = net (n + i) (status_request apiKey url) /\ In url eps.
Proof.
  induction k as [|k IH]; intros n w out rounds Hw; simpl.
  - intros [= <- <-] i url fr Hnth. now destruct i.
  - destruct (for_candidates net apiKey (candidates w eps) n w)
      as [[r w1] log] eqn:Hfc.
    assert (Hcs : forall u, In u (candidates w eps) -> In u eps).
    { intros u. destruct w as [u0|]; simpl; [|auto].
      intros [<-|[]]. now apply Hw. }
    assert (Hlog : forall i url fr,
               nth_error log i = Some (url, fr) ->
               fr = net (n + i) (status_request apiKey url) /\ In url eps).
    { intros i url fr Hnth.
      destruct (for_candidates_calls _ _ _ _ _ _ Hfc i url fr Hnth) as [Hfr Hc].
      split; [exact Hfr|]. apply Hcs. eapply nth_error_In, Hc. }
    destruct r as [v|].
    + intros [= <- <-] i url fr.
      unfold all_probes. simpl. rewrite app_nil_r. apply Hlog.
    + destruct (attempts net apiKey eps intervalMs k (n + List.length log) w1)
        as [out1 rounds1] eqn:Hrec.
      intros [= <- <-] i url fr. rewrite all_probes_cons.
      destruct (Nat.lt_ge_cases i (List.length log)) as [Hlt | Hge].
      * rewrite nth_error_app1 by assumption. apply Hlog.
      * rewrite nth_error_app2 by assumption. intros Hnth.
        assert (Hw1 : forall u, w1 = Some u -> In u eps).
        { intros u Hu.
          rewrite (for_candidates_working _ _ _ _ _ _ _ _ Hfc) in Hu.
          destruct w as [u0|]; [now apply Hw|].
          apply first_pin_in in Hu.
          apply for_candidates_none in Hfc as [Hm _]. rewrite Hm in Hu.
          now apply Hcs. }
        destruct (IH _ _ _ _ Hw1 Hrec _ _ _ Hnth) as [Hfr Hin].
        split; [|exact Hin].
        now replace (n + i)
          with (n + List.length log + (i - List.length log)) by lia.
Qed.

(** A session has at most [k] attempts, and each of them probes at least
    one candidate and at most as many as there are. *)
Lemma attempts_rounds (k : nat) :
  forall n w out rounds,
    eps <> [] ->
    attempts net apiKey eps intervalMs k n w = (out, rounds) ->
    List.length rounds <= k
    /\ Forall (fun r => 1 <= List.length (probes r) <= List.length eps) rounds.
Proof.
  induction k as [|k IH]; intros n w out rounds Heps; simpl.
  - intros [= <- <-]. split; [simpl; lia | constructor].
  - destruct (for_candidates net apiKey (candidates w eps) n w)
      as [[r w1] log] eqn:Hfc.
    assert (Hsize : 1 <= List.length log <= List.length eps).
    { destruct (for_candidates_length _ _ _ _ _ _ Hfc) as [Hle Hne].
      assert (Hc : List.length (candidates w eps) <= List.length eps
                   /\ candidates w eps <> []).
      { destruct w as [u|]; simpl; [|now split].
        split; [|discriminate]. destruct eps; [congruence | simpl; lia]. }
      destruct Hc as [Hc1 Hc2]. specialize (Hne Hc2).
      destruct log; [congruence | simpl in *; lia]. }
    destruct r as [v|].
    + intros [= <- <-]. simpl. split; [lia|]. now repeat constructor.
    + destruct (attempts net apiKey eps intervalMs k (n + List.length log) w1)
        as [out1 rounds1] eqn:Hrec.
      intros [= <- <-]. destruct (IH _ _ _ _ Heps Hrec) as [Hlen Hall].
      simpl. split; [lia|]. now constructor.
Qed.

(** A session that returns a value slept after every attempt but the last;
    one that runs out slept after every attempt. *)
Lemma attempts_sleeps (k : nat) :
  forall n w out rounds,
    attempts net apiKey eps intervalMs k n w = (out, rounds) ->
    match out with
    | Ok _ =>
        exists init last,
          rounds = (init ++ [last])%list
          /\ Forall (fun r => slept r = Some intervalMs) init
          /\ slept last = None
    | Raise _ => Forall (fun r => slept r = Some intervalMs) rounds
    end.
Proof.
  induction k as [|k IH]; intros n w out rounds; simpl.
  - intros [= <- <-]. constructor.
  - destruct (for_candidates net apiKey (candidates w eps) n w)
      as [[[v|] w1] log] eqn:Hfc.
    + intros [= <- <-]. exists [], {| probes := log; slept := None |}.
      repeat split. constructor.
    + destruct (attempts net apiKey eps intervalMs k (n + List.length log) w1)
        as [out1 rounds1] eqn:Hrec.
      intros [= <- <-]. apply IH in Hrec. destruct out1 as [v|e].
      * destruct Hrec as (init & last & -> & Hinit & Hlast).
        exists ({| probes := log; slept := Some intervalMs |} :: init), last.
        repeat split; [|exact Hlast]. now constructor.
      * now constructor.
Qed.

(** A value returned within [k] attempts is returned, after the same
    probes, whatever larger number of attempts is allowed. *)
Lemma attempts_more (k j : nat) :
  forall n w v rounds,
    attempts net apiKey eps intervalMs k n w = (Ok v, rounds) ->
    attempts net apiKey eps intervalMs (k + j) n w = (Ok v, rounds).
Proof.
  induction k as [|k IH]; intros n w v rounds; simpl; [discriminate|].
  destruct (for_candidates net apiKey (candidates w eps) n w)
    as [[[v0|] w1] log] eqn:Hfc; [trivial|].
  destruct (attempts net apiKey eps intervalMs k (n + List.length log) w1)
    as [out1 rounds1] eqn:Hrec.
  intros [= -> <-]. now rewrite (IH _ _ _ _ Hrec).
Qed.

End Loops.

Lemma all_probes_bound (m : nat) (rounds : list round_log) :
  Forall (fun r => 1 <= List.length (probes r) <= m) rounds ->
  List.length (all_probes rounds) <= m * List.length rounds.
Proof.
  induction 1 as [|r rounds Hr _ IH]; [simpl; lia|].
  rewrite all_probes_cons, length_app. simpl. lia.
Qed.

Lemma first_truthy_cases (vs : list value) (d : value) :
  truthy (first_truthy vs d) = true \/ first_truthy vs d = d.
Proof.
  induction vs as [|a vs IH]; simpl; [now right|].
  unfold or_else. destruct (truthy a) eqn:Ha; [now left | exact IH].
Qed.

Lemma presentable_string (s : string) : presentable (VStr s).
Proof. destruct s; [right; now right | now left]. Qed.

Lemma image_url_nullish (image : value) :
  nullish image = true -> exists e, image_url image = Raise e.
Proof.
  intros Hn. unfold image_url, get. rewrite Hn. simpl. eauto.
Qed.

(** Whatever the success branch returns is null, a string or truthy. *)
Lemma extract_presentable (d v : value) :
  extract d = Return v -> presentable v.
Proof.
  unfold extract.
  destruct (truthy (prop d "generated")
            && truthy (prop (prop d "generated") "length")).
  - set (image := first (prop d "generated")).
    destruct (nullish image) eqn:Hn.
    + destruct (image_url_nullish _ Hn) as [e ->]. discriminate.
    + rewrite (image_url_from_image _ Hn). unfold lift, log_prefix.
      destruct (truthy (from_image image)) eqn:Ht.
      * destruct (from_image image); simpl; try discriminate.
        intros [= <-]. apply presentable_string.
      * intros [= <-].
        destruct (first_truthy_cases
                    [prop image "url"; prop image "image_url";
                     prop image "imageUrl"; prop image "src"]
                    (match image with VStr _ => image | _ => VNull end))
          as [H|H]; unfold from_image in *; [congruence|].
        rewrite H. destruct image; try (right; now left).
        apply presentable_string.
  - intros [= <-]. unfold or_else at 1.
    destruct (truthy (or_else (prop d "url") (prop d "image_url"))) eqn:Ht;
      [now left | right; now left].
Qed.

Lemma result_of_presentable (fr : fetch_result) (v : value) :
  result_of fr = Some v -> presentable v.
Proof.
  unfold result_of. destruct (status_payload fr) as [d|]; [|discriminate].
  destruct (is_success (status_of d)); [|discriminate].
  destruct (extract d) eqn:He; try discriminate.
  intros [= <-]. exact (extract_presentable _ _ He).
Qed.

Lemma attempts_presentable (net : provider) (apiKey : string) (eps : list string)
    (intervalMs : Z) (k n : nat) (w : option string) (v : value)
    (rounds : list round_log) :
  attempts net apiKey eps intervalMs k n w = (Ok v, rounds) -> presentable v.
Proof.
  intros H. apply attempts_result in H as (pre & u & fr & _ & Hv & _).
  exact (result_of_presentable _ _ Hv).
Qed.

Lemma endpoints_not_empty (tid : string) : endpoints tid <> [].
Proof. discriminate. Qed.

(** X1: the poller raises nothing but the timeout error, and then only after
    all its attempts; a task id that cannot be rendered into the URLs is the
    one exception, raised before any probe. *)
Theorem poller_raises_only_timeout
    (net : provider) (taskId : value) (apiKey : string) (maxAttempts : nat)
    (intervalMs : Z) (calls : nat) (e : exn) (rounds : list round_log) :
  pollFreepikTask net taskId apiKey maxAttempts intervalMs calls = (Raise e, rounds) ->
  (e = Error "Freepik polling timeout" /\ List.length rounds = maxAttempts)
  \/ (to_string taskId = Raise e /\ rounds = []).
Proof.
  unfold pollFreepikTask. destruct (to_string taskId) as [tid|e0].
  - intros H. apply attempts_result in H as (-> & _ & Hlen & _). now left.
  - intros [= <- <-]. now right.
Qed.

Lemma poller_raises_only_timeout_witness :
  (Error "Freepik polling timeout" = Error "Freepik polling timeout"
   /\ List.length
        (snd (pollFreepikTask (always failed_body) (VStr "T1") "k" 3 2000 0)) = 3)
  \/ (to_string (VStr "T1") = Raise (Error "Freepik polling timeout")
      /\ snd (pollFreepikTask (always failed_body) (VStr "T1") "k" 3 2000 0) = []).
Proof.
  exact (poller_raises_only_timeout (always failed_body) (VStr "T1") "k" 3 2000 0
           (Error "Freepik polling timeout")
           (snd (pollFreepikTask (always failed_body) (VStr "T1") "k" 3 2000 0))
           eq_refl).
Defined.

(** X2: A session makes at most [maxAttempts] attempts of one to three probes
    each, hence at most [3 * maxAttempts] calls to the provider. *)
Theorem poller_call_bound
    (net : provider) (taskId : value) (apiKey : string) (maxAttempts : nat)
    (intervalMs : Z) (calls : nat) :
  let rounds := snd (pollFreepikTask net taskId apiKey maxAttempts intervalMs calls) in
  List.length rounds <= maxAttempts
  /\ Forall (fun r => 1 <= List.length (probes r) <= 3) rounds
  /\ List.length (all_probes rounds) <= 3 * maxAttempts.
Proof.
  unfold pollFreepikTask. destruct (to_string taskId) as [tid|e]; simpl.
  2:{ repeat split; [lia | constructor | lia]. }
  destruct (attempts net apiKey (endpoints tid) intervalMs maxAttempts calls None)
    as [out rounds] eqn:Ha.
  destruct (attempts_rounds net apiKey (endpoints tid) intervalMs maxAttempts
              calls None out rounds (endpoints_not_empty tid) Ha) as [Hlen Hall].
  simpl in *. repeat split; try assumption.
  pose proof (all_probes_bound 3 rounds Hall). nia.
Qed.

(** X3: the calls of a session are numbered consecutively from [calls]; each
    is a GET, carrying the key, for one of the three status URLs of the
    task, and the log holds what the provider answered to it. *)
Theorem poller_calls_are_status_requests
    (net : provider) (taskId : value) (apiKey : string) (maxAttempts : nat)
    (intervalMs : Z) (calls i : nat) (url : string) (fr : fetch_result) :
  nth_error
    (all_probes (snd (pollFreepikTask net taskId apiKey maxAttempts intervalMs calls))) i
  = Some (url, fr) ->
  exists tid,
    to_string taskId = Ok tid
    /\ In url (endpoints tid)
    /\ fr = net (calls + i)
              {| meth := "GET"; url := url; api_key := apiKey; body := None |}.
Proof.
  unfold pollFreepikTask. destruct (to_string taskId) as [tid|e]; simpl.
  2:{ now destruct i. }
  destruct (attempts net apiKey (endpoints tid) intervalMs maxAttempts calls None)
    as [out rounds] eqn:Ha.
  simpl. intros Hnth. exists tid.
  destruct (attempts_calls net apiKey (endpoints tid) intervalMs maxAttempts
              calls None out rounds (fun u H => ltac:(discriminate H)) Ha
              i url fr Hnth) as [Hfr Hin].
  now repeat split.
Qed.

Lemma poller_calls_are_status_requests_witness :
  exists tid,
    to_string (VStr "T1") = Ok tid
    /\ In "https://api.freepik.com/v1/ai/mystic?task_id=T1" (endpoints tid)
    /\ Response {| status := 200; text := ""; json := Some completed_body |}
       = flaky_then_completed (0 + 1)
           {| meth := "GET"; url := "https://api.freepik.com/v1/ai/mystic?task_id=T1";
              api_key := "k"; body := None |}.
Proof.
  exact (poller_calls_are_status_requests flaky_then_completed (VStr "T1") "k"
           5 2000 0 1 "https://api.freepik.com/v1/ai/mystic?task_id=T1"
           (Response {| status := 200; text := ""; json := Some completed_body |})
           eq_refl).
Defined.

(** X4: the poller sleeps [intervalMs] after every attempt except the one in
    which it returns: a session that returns a value ends with an attempt
    without delay, and one that raises slept after every attempt. *)
Theorem poller_sleeps_between_attempts
    (net : provider) (taskId : value) (apiKey : string) (maxAttempts : nat)
    (intervalMs : Z) (calls : nat) :
  let session := pollFreepikTask net taskId apiKey maxAttempts intervalMs calls in
  match fst session with
  | Ok _ =>
      exists init last,
        snd session = (init ++ [last])%list
        /\ Forall (fun r => slept r = Some intervalMs) init
        /\ slept last = None
  | Raise _ => Forall (fun r => slept r = Some intervalMs) (snd session)
  end.
Proof.
  unfold pollFreepikTask. destruct (to_string taskId) as [tid|e]; simpl.
  2:{ constructor. }
  destruct (attempts net apiKey (endpoints tid) intervalMs maxAttempts calls None)
    as [out rounds] eqn:Ha.
  apply attempts_sleeps in Ha. exact Ha.
Qed.

(** X5: the value that the poller returns is null, a string or a truthy
    value; it is never [undefined], [false] or [0]. *)
Theorem poller_value_is_presentable
    (net : provider) (taskId : value) (apiKey : string) (maxAttempts : nat)
    (intervalMs : Z) (calls : nat) (v : value) :
  fst (pollFreepikTask net taskId apiKey maxAttempts intervalMs calls) = Ok v ->
  truthy v = true \/ v = VNull \/ v = VStr "".
Proof.
  unfold pollFreepikTask. destruct (to_string taskId) as [tid|e]; simpl; [|discriminate].
  destruct (attempts net apiKey (endpoints tid) intervalMs maxAttempts calls None)
    as [out rounds] eqn:Ha.
  simpl. intros ->. exact (attempts_presentable _ _ _ _ _ _ _ _ _ Ha).
Qed.

Lemma poller_value_is_presentable_witness :
  truthy (VStr "https://x/a.png") = true
  \/ VStr "https://x/a.png" = VNull \/ VStr "https://x/a.png" = VStr "".
Proof.
  exact (poller_value_is_presentable (always completed_body) (VStr "T1") "k" 2 2000 0
           (VStr "https://x/a.png") eq_refl).
Defined.

(** X6: A COMPLETED or SUCCESS payload whose first generated element is null,
    or selects a truthy value that is not a string, does not end the
    session: the exception thrown while extracting or logging the url is
    dropped with the others, the candidate is pinned all the same, and the
    loop goes on. *)
Theorem ill_typed_success_is_swallowed
    (url : string) (fr : fetch_result) (d image : value) (rest : list value) :
  status_payload fr = Some d ->
  is_success (status_of d) = true ->
  prop d "generated" = VArr (image :: rest) ->
  nullish image = true \/ string_or_falsy (from_image image) = false ->
  probe url fr None = (Normal, Some url).
Proof.
  unfold status_payload, status_of, probe, try_block, read_json.
  destruct fr as [e|r]; [discriminate|].
  destruct (ok r); simpl; [|discriminate].
  destruct (json r) as [data|]; [|discriminate].
  destruct (truthy data && truthy (prop data "data")); [|discriminate].
  intros [= <-] Hs Hg Hbad.
  pose proof (is_success_printable _ Hs) as Hp. unfold printable in Hp.
  destruct (to_string (prop (prop data "data") "status")); [|discriminate].
  unfold is_success in Hs. rewrite Hs. unfold extract. rewrite Hg. simpl.
  destruct Hbad as [Hn | Hty].
  - destruct (image_url_nullish _ Hn) as [e ->]. reflexivity.
  - destruct (nullish image) eqn:Hn.
    + destruct (image_url_nullish _ Hn) as [e ->]. reflexivity.
    + rewrite (image_url_from_image _ Hn). unfold lift, log_prefix.
      unfold string_or_falsy in Hty.
      destruct (from_image image); simpl in *; try discriminate;
        try (apply negb_false_iff in Hty; rewrite Hty); reflexivity.
Qed.

Lemma ill_typed_success_is_swallowed_witness :
  probe "https://api.freepik.com/v1/ai/mystic/T1"
        (always null_image_body 0 (status_request "k" "https://api.freepik.com/v1/ai/mystic/T1"))
        None
  = (Normal, Some "https://api.freepik.com/v1/ai/mystic/T1").
Proof.
  apply (ill_typed_success_is_swallowed "https://api.freepik.com/v1/ai/mystic/T1"
           (always null_image_body 0
              (status_request "k" "https://api.freepik.com/v1/ai/mystic/T1"))
           (prop null_image_body "data") VNull []);
    try reflexivity.
  left. reflexivity.
Defined.

(** X7: the three status URLs of a task are pairwise distinct, whatever the
    task id. *)
Theorem endpoints_are_distinct (taskId : string) : NoDup (endpoints taskId).
Proof.
  unfold endpoints, FREEPIK_API_URL. simpl.
  repeat constructor; simpl; intros H;
    repeat (destruct H as [H | H]; [discriminate H|]); exact H.
Qed.

(** X8: an answer that shows no status payload (a rejected fetch, a status
    outside 200-299, a body that is not JSON, a body without a truthy
    [data]) never ends the session nor changes [working]: the loop goes on
    to the next candidate. *)
Theorem unusable_answer_is_skipped
    (url : string) (fr : fetch_result) (w : option string) :
  status_payload fr = None ->
  snd (probe url fr w) = w
  /\ (fst (probe url fr w) = Normal \/ fst (probe url fr w) = Continue).
Proof.
  unfold status_payload, probe, try_block, read_json.
  destruct fr as [e|r]; simpl; [auto|].
  destruct (ok r); simpl; [|auto].
  destruct (json r) as [data|]; simpl; [|auto].
  destruct (truthy data && truthy (prop data "data")); simpl; [discriminate | auto].
Qed.

Lemma unusable_answer_is_skipped_witness :
  snd (probe "u" (Rejected (Error "fetch failed")) (Some "pinned")) = Some "pinned"
  /\ (fst (probe "u" (Rejected (Error "fetch failed")) (Some "pinned")) = Normal
      \/ fst (probe "u" (Rejected (Error "fetch failed")) (Some "pinned")) = Continue).
Proof.
  exact (unusable_answer_is_skipped "u" (Rejected (Error "fetch failed"))
           (Some "pinned") eq_refl).
Defined.

(** X9: allowing more attempts does not change a session that returns a value:
    the same value is returned after the same probes. *)
Theorem more_attempts_keep_the_result
    (net : provider) (taskId : value) (apiKey : string) (m m' : nat)
    (intervalMs : Z) (calls : nat) (v : value) (rounds : list round_log) :
  pollFreepikTask net taskId apiKey m intervalMs calls = (Ok v, rounds) ->
  m <= m' ->
  pollFreepikTask net taskId apiKey m' intervalMs calls = (Ok v, rounds).
Proof.
  unfold pollFreepikTask. destruct (to_string taskId) as [tid|e]; [|discriminate].
  intros H Hle. replace m' with (m + (m' - m)) by lia.
  now apply attempts_more.
Qed.

Lemma more_attempts_keep_the_result_witness :
  pollFreepikTask flaky_then_completed (VStr "T1") "k" 60 2000 0
  = (Ok (VStr "https://x/a.png"),
     snd (pollFreepikTask flaky_then_completed (VStr "T1") "k" 1 2000 0)).
Proof.
  apply (more_attempts_keep_the_result flaky_then_completed (VStr "T1") "k" 1 60
           2000 0).
  - reflexivity.
  - lia.
Defined.

(** C6, on the code: a COMPLETED payload does not always end the session
    with the artifact of the order of preference.  When the first generated
    element is null the artifact is null, and when its url is the number 5
    the artifact is 5; on either payload the read of line 58 or the log of
    line 59 throws inside the [try], the [catch] drops the exception, and a
    provider that always answers so makes the poller run through all its
    attempts and raise the timeout error, for every [maxAttempts]. *)
Theorem ill_typed_artifact_is_not_returned (maxAttempts : nat) :
  (artifact (prop null_image_body "data") = VNull
   /\ exists rounds,
        pollFreepikTask (always null_image_body) (VStr "T1") "k" maxAttempts 2000 0
        = (Raise (Error "Freepik polling timeout"), rounds)
        /\ List.length rounds = maxAttempts)
  /\ (artifact (prop numeric_url_body "data") = VNum 5
      /\ exists rounds,
           pollFreepikTask (always numeric_url_body) (VStr "T1") "k" maxAttempts 2000 0
           = (Raise (Error "Freepik polling timeout"), rounds)
           /\ List.length rounds = maxAttempts).
Proof.
  unfold pollFreepikTask. simpl to_string. split; (split; [reflexivity|]).
  - destruct (attempts_exhausted (always null_image_body) "k" (endpoints "T1") 2000
                maxAttempts 0 None) as [rounds Hr]; [reflexivity|].
    exists rounds. split; [exact Hr|].
    apply attempts_result in Hr. tauto.
  - destruct (attempts_exhausted (always numeric_url_body) "k" (endpoints "T1") 2000
                maxAttempts 0 None) as [rounds Hr]; [reflexivity|].
    exists rounds. split; [exact Hr|].
    apply attempts_result in Hr. tauto.
Qed.

End PollerExtras.

(** ** Further properties of the handler *)

Module ServerExtras.
Import JS Net Poller Server PollerSpec ServerSpec ExtraSpec PollerFacts ServerFacts
       PollerExtras.

Lemma pollFreepikTask_cases (net : provider) (taskId : value) (apiKey : string)
    (maxAttempts : nat) (intervalMs : Z) (calls : nat) (out : res value)
    (rounds : list round_log) :
  pollFreepikTask net taskId apiKey maxAttempts intervalMs calls = (out, rounds) ->
  (exists tid,
      to_string taskId = Ok tid
      /\ attempts net apiKey (endpoints tid) intervalMs maxAttempts calls None
         = (out, rounds))
  \/ (exists e, to_string taskId = Raise e /\ out = Raise e /\ rounds = []).
Proof.
  unfold pollFreepikTask. destruct (to_string taskId) as [tid|e].
  - intros H. left. now exists tid.
  - intros [= <- <-]. right. now exists e.
Qed.

(** On a task handle the plain reads of the handler and its optional
    reads give the same task id. *)
Lemma handle_task_id (result : value) :
  is_task_handle result = true ->
  prop (prop result "data") "task_id" = task_id_of result.
Proof.
  unfold is_task_handle, task_id_of, get_opt. intros H.
  apply andb_true_iff in H as [H _].
  destruct (nullish result); [discriminate|].
  destruct (nullish (prop result "data")); [discriminate | reflexivity].
Qed.

(** The statements after a task handle was answered. *)
Lemma on_result_handle (net : provider) (apiKey : string) (rq : request)
    (result : value) :
  is_task_handle result = true ->
  printable (task_id_of result) = true ->
  on_result net apiKey rq result =
  let (r, rounds) := pollFreepikTask net (task_id_of result) apiKey 60 2000 1 in
  (match r with Ok u => Ok (url_reply u) | Raise e => Raise e end,
   {| submitted := [rq]; polled := Some rounds |}).
Proof.
  intros Hh Hp. unfold on_result. rewrite (handle_task_id _ Hh).
  unfold printable, task_id_of in *.
  destruct (to_string (get_opt (get_opt result "data") "task_id")); [|discriminate].
  assert (Hs : is_str (get_opt (get_opt result "data") "status") "CREATED" = true).
  { unfold is_task_handle in Hh. now apply andb_true_iff in Hh as [_ Hh]. }
  destruct (is_str_printable _ _ Hs) as [shown ->]. rewrite Hh.
  destruct (pollFreepikTask net _ apiKey 60 2000 1) as [[u|e] rounds]; reflexivity.
Qed.

(** The statements after an answer that is not a task handle. *)
Lemma on_result_direct (net : provider) (apiKey : string) (rq : request)
    (result : value) :
  is_task_handle result = false ->
  printable (task_id_of result) = true ->
  printable (handle_status_of result) = true ->
  on_result net apiKey rq result =
  (match log_prefix "direct" (direct result) with
   | Ok _ => Ok (url_reply (direct result))
   | Raise e => Raise e
   end, sent rq).
Proof.
  intros Hh Hpt Hps. unfold on_result, printable, task_id_of, handle_status_of in *.
  destruct (to_string (get_opt (get_opt result "data") "task_id")); [|discriminate].
  destruct (to_string (get_opt (get_opt result "data") "status")); [|discriminate].
  rewrite Hh. now destruct (log_prefix "direct" (direct result)).
Qed.

Lemma generate_after_answer (net : provider) (env_key : option string)
    (req_body : value) (rq : request) (r : response) :
  submitted (snd (generate net env_key req_body)) = [rq] ->
  net 0 rq = Response r ->
  generate net env_key req_body = finish (on_response net (api_key rq) rq r).
Proof.
  intros Hsub Hnet.
  destruct (generate_after_submission _ _ _ _ Hsub) as (apiKey & _ & Hrq & ->).
  unfold submit. rewrite Hnet. now rewrite Hrq.
Qed.

(** X10: the request that the handler submits: a POST to the generation URL
    with the key of the environment, which is not empty, and a body made of
    the prompt, a non-empty string, and the aspect ratio of the client
    request.  Nothing else is ever submitted. *)
Theorem submission_carries_key_and_prompt
    (net : provider) (env_key : option string) (req_body : value) (rq : request) :
  In rq (submitted (snd (generate net env_key req_body))) ->
  exists apiKey p,
    env_key = Some apiKey /\ apiKey <> ""
    /\ prompt_of req_body = VStr p /\ p <> ""
    /\ rq = {| meth := "POST"; url := "https://api.freepik.com/v1/ai/mystic";
               api_key := apiKey;
               body := Some (VObj [("prompt", VStr p);
                                   ("aspect_ratio", aspect_ratio_of req_body)]) |}
    /\ submitted (snd (generate net env_key req_body)) = [rq].
Proof.
  unfold generate, generate_try, prompt_of, aspect_ratio_of.
  rewrite finish_effects.
  destruct env_key as [[|c k]|]; simpl; try tauto.
  set (b := or_else req_body (VObj [])).
  destruct (log_prefix "prompt" (prop b "prompt")) eqn:Hl; simpl; [|tauto].
  destruct (to_string (prop b "aspect_ratio")); simpl; [|tauto].
  destruct (truthy (prop b "prompt")) eqn:Ht; simpl; [|tauto].
  rewrite submit_submitted. intros [<- | []].
  unfold log_prefix in Hl. rewrite Ht in Hl.
  destruct (prop b "prompt") as [| |x|z|p|l|fs]; simpl in Hl; try discriminate.
  exists (String c k), p. repeat split; try discriminate.
  intros ->. discriminate.
Qed.

Lemma submission_carries_key_and_prompt_witness :
  exists apiKey p,
    Some "k" = Some apiKey /\ apiKey <> ""
    /\ prompt_of cat_request = VStr p /\ p <> ""
    /\ cat_submission
       = {| meth := "POST"; url := "https://api.freepik.com/v1/ai/mystic";
            api_key := apiKey;
            body := Some (VObj [("prompt", VStr p);
                                ("aspect_ratio", aspect_ratio_of cat_request)]) |}
    /\ submitted (snd (generate unreachable (Some "k") cat_request)) = [cat_submission].
Proof.
  apply (submission_carries_key_and_prompt unreachable (Some "k") cat_request
           cat_submission).
  simpl. left. reflexivity.
Defined.

(** X11: A prompt that is truthy but not a string (a number, an object, an
    array) never reaches the provider: the log line that abbreviates it
    throws, and the reply is status 500. *)
Theorem non_string_prompt_is_an_internal_error
    (net : provider) (apiKey : string) (req_body : value) :
  apiKey <> "" ->
  truthy (prompt_of req_body) = true ->
  (forall p, prompt_of req_body <> VStr p) ->
  generate net (Some apiKey) req_body
  = (error_reply 500 "prompt.substring is not a function", no_effects).
Proof.
  unfold generate, generate_try, prompt_of, log_prefix.
  intros Hk Ht Hns. destruct apiKey as [|c k]; [congruence|].
  set (b := or_else req_body (VObj [])) in *. rewrite Ht.
  destruct (prop b "prompt") as [| |x|z|p|l|fs]; try reflexivity.
  now destruct (Hns p).
Qed.

Lemma non_string_prompt_is_an_internal_error_witness :
  generate unreachable (Some "k") (VObj [("prompt", VNum 5)])
  = (error_reply 500 "prompt.substring is not a function", no_effects).
Proof.
  apply (non_string_prompt_is_an_internal_error unreachable "k"
           (VObj [("prompt", VNum 5)])).
  - discriminate.
  - reflexivity.
  - intros p. discriminate.
Defined.

(** X12: A submission that fails at the network level (or is aborted) is
    replied with status 500 and the message of the error, or 'Freepik proxy
    failure' when that message is empty; the poller is not invoked. *)
Theorem rejected_submission_is_an_internal_error
    (net : provider) (env_key : option string) (req_body : value)
    (rq : request) (e : exn) :
  submitted (snd (generate net env_key req_body)) = [rq] ->
  net 0 rq = Rejected e ->
  generate net env_key req_body
  = (error_reply 500 (if message e =? "" then "Freepik proxy failure" else message e),
     sent rq).
Proof.
  intros Hsub Hnet.
  destruct (generate_after_submission _ _ _ _ Hsub) as (apiKey & _ & _ & ->).
  unfold submit. now rewrite Hnet.
Qed.

Lemma rejected_submission_is_an_internal_error_witness :
  generate unreachable (Some "k") cat_request
  = (error_reply 500 "fetch failed", sent cat_submission).
Proof.
  exact (rejected_submission_is_an_internal_error unreachable (Some "k") cat_request
           cat_submission (Error "fetch failed") eq_refl eq_refl).
Defined.

(** X13: A submission answered with a status outside 200-299 other than 429 is
    replied with status 502 and a message that holds the provider's status
    and its whole body text, untruncated; the poller is not invoked. *)
Theorem provider_error_is_relayed
    (net : provider) (env_key : option string) (req_body : value)
    (rq : request) (r : response) :
  submitted (snd (generate net env_key req_body)) = [rq] ->
  net 0 rq = Response r ->
  ok r = false ->
  status r <> 429%Z ->
  generate net env_key req_body
  = (error_reply 502
       ("Freepik error " ++ NilZero.string_of_int (Z.to_int (status r))
        ++ ": " ++ text r), sent rq).
Proof.
  intros Hsub Hnet Hok Hst.
  rewrite (generate_after_answer _ _ _ _ _ Hsub Hnet).
  unfold on_response. rewrite Hok. simpl.
  apply Z.eqb_neq in Hst. now rewrite Hst.
Qed.

Lemma provider_error_is_relayed_witness :
  generate unavailable (Some "k") cat_request
  = (error_reply 502 "Freepik error 503: maintenance", sent cat_submission).
Proof.
  apply (provider_error_is_relayed unavailable (Some "k") cat_request cat_submission
           {| status := 503; text := "maintenance"; json := None |});
    try reflexivity.
  discriminate.
Defined.

(** X14: A 2xx answer whose body is not JSON is replied with status 500 (the
    parse error); the poller is not invoked. *)
Theorem unparsable_answer_is_an_internal_error
    (net : provider) (env_key : option string) (req_body : value)
    (rq : request) (r : response) :
  submitted (snd (generate net env_key req_body)) = [rq] ->
  net 0 rq = Response r ->
  ok r = true ->
  json r = None ->
  code (fst (generate net env_key req_body)) = 500%Z
  /\ snd (generate net env_key req_body) = sent rq.
Proof.
  intros Hsub Hnet Hok Hj.
  rewrite (generate_after_answer _ _ _ _ _ Hsub Hnet).
  unfold on_response, read_json. rewrite Hok, Hj. simpl. now split.
Qed.

Lemma unparsable_answer_is_an_internal_error_witness :
  code (fst (generate not_json (Some "k") cat_request)) = 500%Z
  /\ snd (generate not_json (Some "k") cat_request) = sent cat_submission.
Proof.
  exact (unparsable_answer_is_an_internal_error not_json (Some "k") cat_request
           cat_submission {| status := 200; text := "<html>"; json := None |}
           eq_refl eq_refl eq_refl eq_refl).
Defined.

(** X15: on a task handle the reply is what the poller gives, with the default
    60 attempts and the calls numbered after the submission: status 200 and
    the url that it returns, or status 500 'Freepik polling timeout'. *)
Theorem task_handle_reply_is_the_poll_result
    (net : provider) (env_key : option string) (req_body : value)
    (rq : request) (r : response) (result : value) :
  submitted (snd (generate net env_key req_body)) = [rq] ->
  net 0 rq = Response r ->
  ok r = true ->
  json r = Some result ->
  is_task_handle result = true ->
  printable (task_id_of result) = true ->
  generate net env_key req_body
  = (match fst (pollFreepikTask net (task_id_of result) (api_key rq) 60 2000 1) with
     | Ok u => url_reply u
     | Raise _ => error_reply 500 "Freepik polling timeout"
     end,
     {| submitted := [rq];
        polled := Some (snd (pollFreepikTask net (task_id_of result) (api_key rq)
                               60 2000 1)) |}).
Proof.
  intros Hsub Hnet Hok Hj Hh Hp.
  rewrite (generate_after_answer _ _ _ _ _ Hsub Hnet).
  unfold on_response, read_json. rewrite Hok, Hj. simpl.
  rewrite (on_result_handle _ _ _ _ Hh Hp).
  destruct (pollFreepikTask net (task_id_of result) (api_key rq) 60 2000 1)
    as [[u|e] rounds] eqn:Hpoll; simpl; [reflexivity|].
  apply pollFreepikTask_cases in Hpoll as [(tid & _ & Ha) | (e0 & Hts & _)].
  - apply attempts_result in Ha as (-> & _). reflexivity.
  - unfold printable in Hp. rewrite Hts in Hp. discriminate.
Qed.

Lemma task_handle_reply_is_the_poll_result_witness :
  generate handle_then_completed (Some "k") cat_request
  = (url_reply (VStr "https://x/a.png"),
     {| submitted := [cat_submission];
        polled := Some (snd (pollFreepikTask handle_then_completed (VStr "T1") "k"
                               60 2000 1)) |}).
Proof.
  exact (task_handle_reply_is_the_poll_result handle_then_completed (Some "k")
           cat_request cat_submission
           {| status := 200; text := ""; json := Some handle_with_url |}
           handle_with_url eq_refl eq_refl eq_refl eq_refl eq_refl eq_refl).
Defined.

(** X16: A task that never yields a value on any poll, a task that the
    provider reports as FAILED on every poll included, is replied with
    status 500 'Freepik polling timeout' after exactly 60 attempts. *)
Theorem task_without_result_times_out
    (net : provider) (env_key : option string) (req_body : value)
    (rq : request) (r : response) (result : value) :
  submitted (snd (generate net env_key req_body)) = [rq] ->
  net 0 rq = Response r ->
  ok r = true ->
  json r = Some result ->
  is_task_handle result = true ->
  printable (task_id_of result) = true ->
  (forall c q, result_of (net c q) = None) ->
  fst (generate net env_key req_body) = error_reply 500 "Freepik polling timeout"
  /\ exists rounds,
       polled (snd (generate net env_key req_body)) = Some rounds
       /\ List.length rounds = 60.
Proof.
  intros Hsub Hnet Hok Hj Hh Hp Hnone.
  rewrite (generate_after_answer _ _ _ _ _ Hsub Hnet).
  unfold on_response, read_json. rewrite Hok, Hj. simpl.
  rewrite (on_result_handle _ _ _ _ Hh Hp).
  unfold pollFreepikTask, printable in *.
  destruct (to_string (task_id_of result)) as [tid|]; [|discriminate].
  destruct (attempts_exhausted net (api_key rq) (endpoints tid) 2000 60 1 None Hnone)
    as [rounds Ha].
  rewrite Ha. simpl. split; [reflexivity|].
  exists rounds. split; [reflexivity|].
  apply attempts_result in Ha. tauto.
Qed.

Lemma task_without_result_times_out_witness :
  fst (generate handle_then_failed (Some "k") cat_request)
  = error_reply 500 "Freepik polling timeout"
  /\ exists rounds,
       polled (snd (generate handle_then_failed (Some "k") cat_request)) = Some rounds
       /\ List.length rounds = 60.
Proof.
  apply (task_without_result_times_out handle_then_failed (Some "k") cat_request
           cat_submission
           {| status := 200; text := ""; json := Some handle_body |}
           handle_body);
    try reflexivity.
  intros [|c] q; reflexivity.
Defined.

(** X17: the poller is invoked only on a 2xx answer to the submission whose
    JSON body is a task handle: a truthy task_id with status 'CREATED'. *)
Theorem polling_only_on_task_handle
    (net : provider) (env_key : option string) (req_body : value)
    (rounds : list round_log) :
  polled (snd (generate net env_key req_body)) = Some rounds ->
  exists rq r result,
    submitted (snd (generate net env_key req_body)) = [rq]
    /\ net 0 rq = Response r
    /\ ok r = true
    /\ json r = Some result
    /\ is_task_handle result = true.
Proof.
  unfold generate, generate_try. rewrite finish_effects.
  destruct env_key as [[|c k]|]; simpl; try discriminate.
  set (b := or_else req_body (VObj [])).
  destruct (log_prefix "prompt" (prop b "prompt")); simpl; [|discriminate].
  destruct (to_string (prop b "aspect_ratio")); simpl; [|discriminate].
  destruct (negb (truthy (prop b "prompt"))); simpl; [discriminate|].
  set (rq := submit_request (String c k) (prop b "prompt") (prop b "aspect_ratio")).
  rewrite submit_submitted. unfold submit, on_response, read_json.
  destruct (net 0 rq) as [e|r] eqn:Hnet; simpl; [discriminate|].
  destruct (ok r) eqn:Hok; simpl.
  2:{ destruct (status r =? 429)%Z; discriminate. }
  destruct (json r) as [result|] eqn:Hj; simpl; [|discriminate].
  unfold on_result.
  destruct (to_string (get_opt (get_opt result "data") "task_id")); [|discriminate].
  destruct (to_string (get_opt (get_opt result "data") "status")); [|discriminate].
  destruct (is_task_handle result) eqn:Hh.
  - intros _. exists rq, r, result. now repeat split.
  - destruct (log_prefix "direct" (direct result)); discriminate.
Qed.

Lemma polling_only_on_task_handle_witness :
  exists rq r result,
    submitted (snd (generate handle_then_completed (Some "k") cat_request)) = [rq]
    /\ handle_then_completed 0 rq = Response r
    /\ ok r = true
    /\ json r = Some result
    /\ is_task_handle result = true.
Proof.
  exact (polling_only_on_task_handle handle_then_completed (Some "k") cat_request
           (snd (pollFreepikTask handle_then_completed (VStr "T1") "k" 60 2000 1))
           eq_refl).
Defined.

(** X18: without a task handle nor a result under data, a non-empty string
    under the top-level url of a 2xx answer is replied as the url. *)
Theorem top_level_url_is_replied
    (net : provider) (env_key : option string) (req_body : value)
    (rq : request) (r : response) (result : value) (u : string) :
  submitted (snd (generate net env_key req_body)) = [rq] ->
  net 0 rq = Response r ->
  ok r = true ->
  json r = Some result ->
  is_task_handle result = false ->
  printable (task_id_of result) = true ->
  printable (handle_status_of result) = true ->
  truthy (embedded result) = false ->
  get_opt result "url" = VStr u ->
  u <> "" ->
  generate net env_key req_body = (url_reply (VStr u), sent rq).
Proof.
  intros Hsub Hnet Hok Hj Hh Hpt Hps He Hu Hne.
  rewrite (generate_after_answer _ _ _ _ _ Hsub Hnet).
  unfold on_response, read_json. rewrite Hok, Hj. simpl.
  rewrite (on_result_direct _ _ _ _ Hh Hpt Hps).
  assert (Hd : direct result = VStr u).
  { unfold direct. unfold embedded in He. unfold or_else at 2. rewrite He, Hu.
    unfold or_else. simpl. destruct u; [congruence | reflexivity]. }
  rewrite Hd. unfold log_prefix. simpl. destruct u; [congruence | reflexivity].
Qed.

Lemma top_level_url_is_replied_witness :
  generate (always (VObj [("url", VStr "https://x/top.png")])) (Some "k") cat_request
  = (url_reply (VStr "https://x/top.png"), sent cat_submission).
Proof.
  apply (top_level_url_is_replied
           (always (VObj [("url", VStr "https://x/top.png")])) (Some "k") cat_request
           cat_submission
           {| status := 200; text := "";
              json := Some (VObj [("url", VStr "https://x/top.png")]) |}
           (VObj [("url", VStr "https://x/top.png")]) "https://x/top.png");
    try reflexivity.
  discriminate.
Defined.

(** X19: A 2xx answer that is not a task handle and whose result field holds a
    truthy value that is not a string (a number, an object) is replied with
    status 500: the log line that abbreviates the url throws. *)
Theorem non_string_result_is_an_internal_error
    (net : provider) (env_key : option string) (req_body : value)
    (rq : request) (r : response) (result : value) :
  submitted (snd (generate net env_key req_body)) = [rq] ->
  net 0 rq = Response r ->
  ok r = true ->
  json r = Some result ->
  is_task_handle result = false ->
  printable (task_id_of result) = true ->
  printable (handle_status_of result) = true ->
  truthy (direct result) = true ->
  (forall u, direct result <> VStr u) ->
  generate net env_key req_body
  = (error_reply 500 "direct.substring is not a function", sent rq).
Proof.
  intros Hsub Hnet Hok Hj Hh Hpt Hps Ht Hns.
  rewrite (generate_after_answer _ _ _ _ _ Hsub Hnet).
  unfold on_response, read_json. rewrite Hok, Hj. simpl.
  rewrite (on_result_direct _ _ _ _ Hh Hpt Hps).
  unfold log_prefix. rewrite Ht.
  destruct (direct result) as [| |x|z|u|l|fs]; try reflexivity.
  now destruct (Hns u).
Qed.

Lemma non_string_result_is_an_internal_error_witness :
  generate (always (status_body [("url", VNum 7)])) (Some "k") cat_request
  = (error_reply 500 "direct.substring is not a function", sent cat_submission).
Proof.
  apply (non_string_result_is_an_internal_error
           (always (status_body [("url", VNum 7)])) (Some "k") cat_request
           cat_submission
           {| status := 200; text := ""; json := Some (status_body [("url", VNum 7)]) |}
           (status_body [("url", VNum 7)]));
    try reflexivity.
  intros u. discriminate.
Defined.

Lemma well_shaped_error (c : Z) (msg : string) :
  In c [400; 429; 500; 502]%Z -> msg <> "" -> well_shaped (error_reply c msg).
Proof. intros Hc Hm. right. split; [exact Hc|]. now exists msg. Qed.

Lemma well_shaped_exception (e : exn) : well_shaped (on_exception e).
Proof.
  unfold on_exception. apply well_shaped_error; [simpl; tauto|].
  destruct (message e =? "") eqn:Hm; [discriminate|].
  now apply String.eqb_neq.
Qed.

Lemma well_shaped_url (u : value) : presentable u -> well_shaped (url_reply u).
Proof. intros Hu. left. split; [reflexivity|]. now exists u. Qed.

Lemma direct_presentable (result : value) : presentable (direct result).
Proof.
  unfold direct. unfold or_else at 1.
  destruct (truthy (or_else _ (get_opt result "url"))) eqn:Ht;
    [now left | right; now left].
Qed.

Lemma on_result_shape (net : provider) (apiKey : string) (rq : request)
    (result : value) :
  well_shaped (fst (finish (on_result net apiKey rq result))).
Proof.
  unfold on_result.
  destruct (to_string (get_opt (get_opt result "data") "task_id"));
    [|apply well_shaped_exception].
  destruct (to_string (get_opt (get_opt result "data") "status"));
    [|apply well_shaped_exception].
  destruct (is_task_handle result).
  - destruct (pollFreepikTask net _ apiKey 60 2000 1) as [[u|e] rounds] eqn:Hpoll;
      simpl; [|apply well_shaped_exception].
    apply well_shaped_url.
    apply pollFreepikTask_cases in Hpoll as [(tid & _ & Ha) | (e0 & _ & He & _)];
      [|discriminate].
    exact (attempts_presentable _ _ _ _ _ _ _ _ _ Ha).
  - destruct (log_prefix "direct" (direct result)); simpl;
      [|apply well_shaped_exception].
    apply well_shaped_url, direct_presentable.
Qed.

Lemma submit_shape (net : provider) (apiKey : string) (rq : request) :
  well_shaped (fst (finish (submit net apiKey rq))).
Proof.
  unfold submit, on_response.
  destruct (net 0 rq) as [e|r]; [apply well_shaped_exception|].
  destruct (negb (ok r)).
  - destruct (status r =? 429)%Z; simpl.
    + right. split; [simpl; tauto|].
      exists quota_message. split; [reflexivity | discriminate].
    + apply well_shaped_error; [simpl; tauto | discriminate].
  - destruct (read_json r); [apply on_result_shape | apply well_shaped_exception].
Qed.

(** X20: every reply of the handler has one of two shapes: status 200 with a
    url that is null, a string or a truthy value; or status 400, 429, 500
    or 502 with a non-empty error message.  Never both, never neither. *)
Theorem reply_is_well_shaped
    (net : provider) (env_key : option string) (req_body : value) :
  well_shaped (fst (generate net env_key req_body)).
Proof.
  unfold generate, generate_try.
  destruct env_key as [[|c k]|];
    try (apply well_shaped_error; [simpl; tauto | discriminate]).
  cbv zeta.
  destruct (log_prefix "prompt" _); [|apply well_shaped_exception].
  destruct (to_string _); [|apply well_shaped_exception].
  destruct (negb _).
  - apply well_shaped_error; [simpl; tauto | discriminate].
  - apply submit_shape.
Qed.

Lemma small_effects_bound (eff : effects) :
  polled eff = None -> List.length (submitted eff) <= 1 -> within_bounds eff.
Proof.
  unfold within_bounds, provider_calls. intros -> Hs.
  repeat split; [lia | lia | discriminate].
Qed.

Lemma on_result_calls (net : provider) (apiKey : string) (rq : request)
    (result : value) :
  within_bounds (snd (on_result net apiKey rq result)).
Proof.
  unfold on_result.
  destruct (to_string (get_opt (get_opt result "data") "task_id"));
    [|now apply small_effects_bound].
  destruct (to_string (get_opt (get_opt result "data") "status"));
    [|now apply small_effects_bound].
  destruct (is_task_handle result).
  - destruct (pollFreepikTask net _ apiKey 60 2000 1) as [out rounds] eqn:Hpoll.
    assert (Hb : List.length rounds <= 60
                 /\ List.length (all_probes rounds) <= 180).
    { apply pollFreepikTask_cases in Hpoll as [(tid & _ & Ha) | (e0 & _ & _ & ->)].
      - destruct (attempts_rounds _ _ _ _ _ _ _ _ _ (endpoints_not_empty tid) Ha)
          as [Hlen Hall].
        pose proof (all_probes_bound 3 rounds Hall) as Hp.
        change (List.length (endpoints tid)) with 3 in Hall. lia.
      - split; [apply Nat.le_0_l | apply Nat.le_0_l]. }
    assert (Hw : within_bounds {| submitted := [rq]; polled := Some rounds |}).
    { unfold within_bounds, provider_calls.
      cbn [submitted polled List.length].
      repeat split; [lia | lia | intros rs [= <-]; lia]. }
    destruct out as [u|e]; exact Hw.
  - destruct (log_prefix "direct" (direct result)); now apply small_effects_bound.
Qed.

(** X21: A client request costs at most 181 calls to the provider: at most one
    submission, and at most 60 attempts of at most three probes each. *)
Theorem request_call_bound
    (net : provider) (env_key : option string) (req_body : value) :
  let eff := snd (generate net env_key req_body) in
  provider_calls eff <= 181
  /\ List.length (submitted eff) <= 1
  /\ (forall rounds, polled eff = Some rounds -> List.length rounds <= 60).
Proof.
  cbv zeta. fold (within_bounds (snd (generate net env_key req_body))).
  unfold generate, generate_try. rewrite finish_effects.
  destruct env_key as [[|c k]|].
  - apply small_effects_bound; [reflexivity | apply Nat.le_0_l].
  - cbv zeta.
    destruct (log_prefix "prompt" _);
      [|apply small_effects_bound; [reflexivity | apply Nat.le_0_l]].
    destruct (to_string _);
      [|apply small_effects_bound; [reflexivity | apply Nat.le_0_l]].
    destruct (negb _);
      [apply small_effects_bound; [reflexivity | apply Nat.le_0_l]|].
    unfold submit, on_response.
    destruct (net 0 _) as [e|r]; [now apply small_effects_bound|].
    destruct (negb (ok r)).
    + destruct (status r =? 429)%Z; now apply small_effects_bound.
    + destruct (read_json r); [apply on_result_calls | now apply small_effects_bound].
  - apply small_effects_bound; [reflexivity | apply Nat.le_0_l].
Qed.

End ServerExtras.

(** ** Properties of the debug route *)

Module RoutesFacts.
Import JS Net Poller Server Routes ServerSpec ServerFacts.

Lemma drop_suffix (n : nat) (s : string) :
  exists pre, s = pre ++ drop n s /\ String.length (drop n s) = String.length s - n.
Proof.
  revert s. induction n as [|n IH]; intros s.
  - exists "". simpl. split; [reflexivity | lia].
  - destruct s as [|c s]; simpl.
    + now exists "".
    + destruct (IH s) as (pre & Hs & Hl).
      exists (String c pre). simpl. split; [now rewrite <- Hs | exact Hl].
Qed.

(** X22: the debug route reveals at most the last six code units of the key:
    [keyTail] is null without a key, and otherwise a suffix of the key of
    length [min 6 (length key)], so that a key of six code units or fewer
    is revealed whole. *)
Theorem debug_reveals_the_key_tail (env_key : option string) :
  (hasKey env_key = false /\ keyTail env_key = VNull)
  \/ (exists key pre tail,
        env_key = Some key /\ hasKey env_key = true
        /\ keyTail env_key = VStr tail
        /\ key = pre ++ tail
        /\ String.length tail = Nat.min 6 (String.length key)).
Proof.
  destruct env_key as [[|c k]|]; [now left | | now left].
  right. unfold keyTail, slice_last. simpl hasKey. cbv iota.
  set (key := String c k).
  destruct (drop_suffix (String.length key - 6) key) as (pre & Hs & Hl).
  exists key, pre, (drop (String.length key - 6) key).
  repeat split; [exact Hs | lia].
Qed.

(** X23: the debug route and the handler agree on the key: [hasKey] is false
    exactly when the handler replies the configuration error, without any
    call to the provider. *)
Theorem debug_agrees_with_key_check
    (net : provider) (env_key : option string) (req_body : value) :
  hasKey env_key = false
  <-> generate net env_key req_body
      = (error_reply 400 "Freepik API key missing on server", no_effects).
Proof.
  destruct env_key as [[|c k]|]; simpl; [tauto | | tauto].
  split; [discriminate|].
  unfold generate, generate_try. cbv zeta.
  destruct (log_prefix "prompt" _); [|discriminate].
  destruct (to_string _); [|discriminate].
  destruct (negb _); [discriminate|].
  intros H. apply (f_equal snd) in H. rewrite finish_effects in H.
  apply (f_equal submitted) in H. rewrite submit_submitted in H. discriminate.
Qed.

End RoutesFacts.
